(** * Quiz and flashcard web application: the extraction, generation and
      grading pipeline of [web_app.py]

    The development embeds the Python functions [clean_gemini_json],
    [generate_quiz_logic], [generate_flashcards_logic], the flashcard branch
    of the [/generate] route and the [/submit] route [submit_quiz], and
    proves the properties the specification states about them.

    Conventions of the embedding:
    - a Python [str] is a [string]; its characters are the code points
      U+0000..U+00FF, on which [isspace] and [lower] below agree with
      Python's [str.isspace] and [str.lower];
    - a Python [int] is a [Z]; a [float] is a binary64 value of
      [SpecFloat.spec_float] with the IEEE operations of the standard
      library instantiated at precision 53;
    - [str.find] and [str.rfind] return [-1] for a missing pattern, as in
      Python, and the code's comparisons against [-1] are kept;
    - exceptions are values of [exn]; effectful functions run in a small
      state-and-error monad whose state records the requests sent. *)

From Stdlib Require Import Bool Arith ZArith List Lia.
From Stdlib Require Import Ascii String DecimalString.
From Stdlib Require Import SpecFloat.
Import ListNotations.

Local Open Scope string_scope.
Local Open Scope Z_scope.

(** ** Python string primitives *)

Module PyStr.

(** [str.isspace] on one character of the Latin-1 range: TAB..CR, the
    separators FS..US, SPACE, NEL and NBSP. *)
Definition isspace (c : ascii) : bool :=
  let n := nat_of_ascii c in
  ((9 <=? n) && (n <=? 13) || (28 <=? n) && (n <=? 32)
   || (n =? 133) || (n =? 160))%nat.

(** [str.lower] on one character of the Latin-1 range: A..Z and the
    accented capitals U+00C0..U+00DE, the multiplication sign excepted. *)
Definition lower_char (c : ascii) : ascii :=
  let n := nat_of_ascii c in
  if ((65 <=? n) && (n <=? 90)
      || (192 <=? n) && (n <=? 222) && negb (n =? 215))%nat
  then ascii_of_nat (n + 32) else c.

Fixpoint lower (s : string) : string :=
  match s with
  | EmptyString => EmptyString
  | String c s' => String (lower_char c) (lower s')
  end.

Fixpoint lstrip (s : string) : string :=
  match s with
  | EmptyString => EmptyString
  | String c s' => if isspace c then lstrip s' else s
  end.

Fixpoint rstrip (s : string) : string :=
  match s with
  | EmptyString => EmptyString
  | String c s' =>
      match rstrip s' with
      | EmptyString => if isspace c then EmptyString else String c EmptyString
      | r => String c r
      end
  end.

(** [s.strip()] *)
Definition strip (s : string) : string := rstrip (lstrip s).

(** [s.find(sub)]: index of the first occurrence, [-1] when there is none. *)
Fixpoint find (sub s : string) : Z :=
  if prefix sub s then 0
  else match s with
       | EmptyString => -1
       | String _ s' => let r := find sub s' in
                        if r =? -1 then -1 else r + 1
       end.

(** [s.rfind(sub)]: index of the last occurrence, [-1] when there is none. *)
Fixpoint rfind (sub s : string) : Z :=
  match s with
  | EmptyString => if prefix sub s then 0 else -1
  | String _ s' => let r := rfind sub s' in
                   if r =? -1 then (if prefix sub s then 0 else -1)
                   else r + 1
  end.

(** [sub in s] *)
Definition contains (sub s : string) : bool := negb (find sub s =? -1).

(** [s.replace(old, new)] for a non-empty [old]: occurrences are replaced
    from the left and do not overlap.  [skip] counts the characters of the
    occurrence just replaced that are still to be dropped. *)
Fixpoint replace_from (old new : string) (skip : nat) (s : string) : string :=
  match s with
  | EmptyString => EmptyString
  | String c s' =>
      match skip with
      | S k => replace_from old new k s'
      | O => if prefix old s
             then new ++ replace_from old new (String.length old - 1) s'
             else String c (replace_from old new 0 s')
      end
  end.

(** With an empty [old], Python inserts [new] before every character and
    at the end. *)
Fixpoint intersperse (new s : string) : string :=
  match s with
  | EmptyString => new
  | String c s' => new ++ String c (intersperse new s')
  end.

Definition replace (old new s : string) : string :=
  match old with
  | EmptyString => intersperse new s
  | _ => replace_from old new 0 s
  end.

(** A slice bound that is negative counts from the end; both bounds are
    clamped to the string. *)
Definition clamp_index (len i : Z) : Z :=
  if i <? 0 then Z.max 0 (i + len) else Z.min i len.

(** [s[start:stop]] *)
Definition slice (s : string) (start stop : Z) : string :=
  let len := Z.of_nat (String.length s) in
  let a := clamp_index len start in
  let b := clamp_index len stop in
  substring (Z.to_nat a) (Z.to_nat (b - a)) s.

(** [str(n)] for an [int] *)
Definition str_of_int (n : Z) : string := NilZero.string_of_int (Z.to_int n).

(** [str(n)] for a loop index *)
Definition str_of_nat (n : nat) : string :=
  NilZero.string_of_uint (Nat.to_uint n).

End PyStr.

Import PyStr.

(** Characters that cannot be written inside a literal. *)
Definition nl : string := String (ascii_of_nat 10) EmptyString.
Definition dq : string := String (ascii_of_nat 34) EmptyString.

(** ** The response extractor: [clean_gemini_json] *)

(** Lines 49-53: the text stripped, then without its fence markers. *)
Definition unfenced (text : string) : string :=
  let text := strip text in
  if contains "```" text
  then replace "```" "" (replace "```json" "" text)
  else text.

(** Lines 56-70: the positions [start] and [end] of the payload. *)
Definition payload_bounds (text : string) : Z * Z :=
  let start_brace := find "{" text in
  let start_bracket := find "[" text in
  if negb (start_brace =? -1)
     && ((start_bracket =? -1) || (start_brace <? start_bracket))
  then (start_brace, rfind "}" text)
  else if negb (start_bracket =? -1)
  then (start_bracket, rfind "]" text)
  else (-1, -1).

Definition clean_gemini_json (text : string) : string :=
  let text := unfenced text in
  let '(start, end_) := payload_bounds text in
  if negb (start =? -1) && negb (end_ =? -1)
  then slice text start (end_ + 1)
  else text.

(** ** Binary64 arithmetic of the score and of the question mix *)

Module PyFloat.

Definition prec : Z := 53.
Definition emax : Z := 1024.

Definition float : Type := spec_float.

Definition fadd : float -> float -> float := SFadd prec emax.
Definition fsub : float -> float -> float := SFsub prec emax.
Definition fmul : float -> float -> float := SFmul prec emax.

(** The literals of the source.  [0.1] is the double nearest to 1/10. *)
Definition f_0_0 : float := S754_zero false.
Definition f_1_0 : float := S754_finite false 4503599627370496 (-52).
Definition f_0_5 : float := S754_finite false 4503599627370496 (-53).
Definition f_0_1 : float := S754_finite false 7205759403792794 (-56).

(** [float(n)], rounded to nearest even; [None] is Python's
    [OverflowError] for an [int] beyond the binary64 range. *)
Definition float_of_int (n : Z) : option float :=
  match binary_normalize prec emax n 0 false with
  | S754_finite s m e => Some (S754_finite s m e)
  | S754_zero s => Some (S754_zero s)
  | _ => None
  end.

(** [math.ceil(x)]; [None] is the exception Python raises on an infinity
    or a NaN. *)
Definition ceil (x : float) : option Z :=
  match x with
  | S754_zero _ => Some 0
  | S754_finite s m e =>
      let n := if s then Z.neg m else Z.pos m in
      Some (if 0 <=? e then n * 2 ^ e else - ((- n) / 2 ^ (- e)))
  | _ => None
  end.

(** The integer nearest to [n / d], ties to even ([0 < d]). *)
Definition round_half_even (n d : Z) : Z :=
  let q := n / d in
  let r := n mod d in
  if 2 * r <? d then q
  else if d <? 2 * r then q + 1
  else if Z.even q then q else q + 1.

Definition two_digits (n : Z) : string :=
  if n <? 10 then "0" ++ str_of_int n else str_of_int n.

(** [f"{x:.2f}"]: the exact value of [x] correctly rounded to two
    decimals, the sign of a negative [x] kept even when the digits are all
    zero. *)
Definition format_2f (x : float) : string :=
  match x with
  | S754_zero s => (if s then "-" else "") ++ "0.00"
  | S754_finite s m e =>
      let q := if 0 <=? e then Z.pos m * 100 * 2 ^ e
               else round_half_even (Z.pos m * 100) (2 ^ (- e)) in
      (if s then "-" else "")
        ++ str_of_int (q / 100) ++ "." ++ two_digits (q mod 100)
  | S754_infinity s => if s then "-inf" else "inf"
  | S754_nan => "nan"
  end.

End PyFloat.

Import PyFloat.

(** ** The quiz grader: [submit_quiz] *)

(** A question of the pending quiz: the dictionary with the keys [text],
    [qtype], [options] and [answer] that the prompt asks for. *)
Record Question : Type := {
  text : string;
  qtype : string;
  options : option (list string);
  answer : string
}.

(** One entry of [details]. *)
Record Detail : Type := {
  d_text : string;
  user_answer : string;
  correct_answer : string;
  result : string
}.

(** The local variables of the grading loop. *)
Record Tally : Type := {
  score : float;
  correct : Z;
  wrong : Z;
  blank : Z;
  details : list Detail
}.

(** The submitted form: fields in the order received; [get] returns the
    value of the first field with the key, or the default. *)
Definition Form : Type := list (string * string).

Fixpoint form_get (form : Form) (key default : string) : string :=
  match form with
  | [] => default
  | (k, v) :: rest => if String.eqb k key then v else form_get rest key default
  end.

Definition is_empty (s : string) : bool :=
  match s with EmptyString => true | _ => false end.

(** Line 240: the stripped answer to question [i]. *)
Definition submitted (form : Form) (i : nat) : string :=
  strip (form_get form ("q" ++ str_of_nat i) "").

Definition add_detail (t : Tally) (q : Question) (ans res : string)
  : list Detail :=
  (details t ++ [ {| d_text := text q; user_answer := ans;
                     correct_answer := answer q; result := res |} ])%list.

(** Lines 240-263: the body of the loop for question [q] at index [i]. *)
Definition grade_step (form : Form) (t : Tally) (i : nat) (q : Question)
  : Tally :=
  let ans := submitted form i in
  if is_empty ans then
    {| score := score t; correct := correct t; wrong := wrong t;
       blank := blank t + 1; details := add_detail t q ans "blank" |}
  else
    let is_correct :=
      if String.eqb (qtype q) "mcq"
      then String.eqb ans (answer q)
      else String.eqb (lower ans) (lower (answer q)) in
    if is_correct then
      {| score := fadd (score t) f_1_0; correct := correct t + 1;
         wrong := wrong t; blank := blank t;
         details := add_detail t q ans "correct" |}
    else
      {| score := fsub (score t) f_0_1; correct := correct t;
         wrong := wrong t + 1; blank := blank t;
         details := add_detail t q ans "wrong" |}.

(** [for i, q in enumerate(questions)], counting from [i]. *)
Fixpoint grade_loop (form : Form) (t : Tally) (i : nat)
  (questions : list Question) : Tally :=
  match questions with
  | [] => t
  | q :: rest => grade_loop form (grade_step form t i q) (S i) rest
  end.

Definition tally0 : Tally :=
  {| score := f_0_0; correct := 0; wrong := 0; blank := 0; details := [] |}.

(** The values handed to the result template. *)
Record Result : Type := {
  total : Z;
  r_correct : Z;
  r_wrong : Z;
  r_blank : Z;
  r_score : string;
  r_details : list Detail
}.

Inductive SubmitResponse : Type :=
| NoActiveQuiz (flash : string)
| RenderResult (r : Result).

(** The session holds the pending questions under the key [questions], or
    nothing.  The route returns its response and the session it leaves. *)
Definition Session : Type := option (list Question).

Definition submit_quiz (session : Session) (form : Form)
  : SubmitResponse * Session :=
  match session with
  | None | Some [] => (NoActiveQuiz "Nessun quiz attivo.", session)
  | Some questions =>
      let t := grade_loop form tally0 0 questions in
      (RenderResult
         {| total := Z.of_nat (List.length questions);
            r_correct := correct t; r_wrong := wrong t; r_blank := blank t;
            r_score := format_2f (score t); r_details := details t |},
       None)
  end.

(** ** Exceptions, JSON values and the effects of a request *)

(** The exceptions the modelled code can raise.  [RuntimeErrorFrom msg e]
    is [RuntimeError(f"{msg}{e}")], the wrapper the generators raise from
    their [except] clause. *)
Inductive exn : Type :=
| ValueError (msg : string)
| RuntimeError (msg : string)
| RuntimeErrorFrom (msg : string) (cause : exn)
| OverflowError
| ConnectionError
| HTTPError (status : Z)
| JSONDecodeError
| KeyError
| IndexError
| TypeError
| AttributeError
| UnboundLocalError
| IntegrityError.

(** A value returned by [json.loads].  An object is the dictionary built
    from it: each key occurs once. *)
#[warnings="-register-all"]
Inductive json : Type :=
| JNull
| JBool (b : bool)
| JInt (n : Z)
| JFloat (x : float)
| JStr (s : string)
| JArr (items : list json)
| JObj (members : list (string * json)).

Fixpoint assoc (k : string) (m : list (string * json)) : option json :=
  match m with
  | [] => None
  | (k', v) :: rest => if String.eqb k' k then Some v else assoc k rest
  end.

(** [j[k]] for a string key *)
Definition getitem_key (j : json) (k : string) : exn + json :=
  match j with
  | JObj m => match assoc k m with Some v => inr v | None => inl KeyError end
  | _ => inl TypeError
  end.

(** [j[i]] for an integer index *)
Definition getitem_index (j : json) (i : Z) : exn + json :=
  match j with
  | JArr l =>
      let len := Z.of_nat (List.length l) in
      let k := if i <? 0 then i + len else i in
      if (0 <=? k) && (k <? len)
      then match nth_error l (Z.to_nat k) with
           | Some v => inr v
           | None => inl IndexError
           end
      else inl IndexError
  | JStr s =>
      let len := Z.of_nat (String.length s) in
      let k := if i <? 0 then i + len else i in
      if (0 <=? k) && (k <? len)
      then inr (JStr (substring (Z.to_nat k) 1 s))
      else inl IndexError
  | JObj _ => inl KeyError
  | _ => inl TypeError
  end.

(** [k in j] for a string [k] *)
Definition py_in (k : string) (j : json) : exn + bool :=
  match j with
  | JObj m => inr (match assoc k m with Some _ => true | None => false end)
  | JStr s => inr (contains k s)
  | JArr l =>
      inr (existsb (fun v => match v with
                             | JStr s => String.eqb s k
                             | _ => false
                             end) l)
  | _ => inl TypeError
  end.

(** [for c in j]: the values the loop visits *)
Definition py_iter (j : json) : exn + list json :=
  match j with
  | JArr l => inr l
  | JObj m => inr (map (fun kv => JStr (fst kv)) m)
  | JStr s => inr (map (fun c => JStr (String c EmptyString))
                       (list_ascii_of_string s))
  | _ => inl TypeError
  end.

(** A persisted deck with the cards committed for it.  The creation time
    is left out. *)
Record Flashcard : Type := { front : json; back : json }.

Record Deck : Type := {
  deck_id : Z;
  topic : string;
  cards : list Flashcard
}.

(** What a request acts on: the prompts posted to the completion service,
    the lines printed (the constant part and the interpolated value), and
    the committed decks. *)
Record World : Type := {
  sent : list string;
  printed : list (string * json);
  decks : list Deck
}.

Definition M (A : Type) : Type := World -> (exn + A) * World.

Definition ret {A : Type} (a : A) : M A := fun w => (inr a, w).

Definition raise {A : Type} (e : exn) : M A := fun w => (inl e, w).

Definition bind {A B : Type} (m : M A) (k : A -> M B) : M B :=
  fun w => match m w with
           | (inl e, w') => (inl e, w')
           | (inr a, w') => k a w'
           end.

(** [try: body / except Exception as e: handler e] *)
Definition try_except {A : Type} (body : M A) (handler : exn -> M A) : M A :=
  fun w => match body w with
           | (inl e, w') => handler e w'
           | (inr a, w') => (inr a, w')
           end.

Definition lift {A : Type} (r : exn + A) : M A :=
  match r with inl e => raise e | inr a => ret a end.

Notation "x <- m ;; k" := (bind m (fun x => k))
  (at level 61, m at next level, right associativity).

Definition print (line : string) (value : json) : M unit :=
  fun w => (inr tt, {| sent := sent w;
                       printed := (printed w ++ [(line, value)])%list;
                       decks := decks w |}).

Fixpoint join_lines (lines : list string) : string :=
  match lines with
  | [] => ""
  | [l] => l
  | l :: rest => l ++ nl ++ join_lines rest
  end.

(** ** The generators: [generate_quiz_logic], [generate_flashcards_logic] *)

(** Line 83: [math.ceil(num_questions * 0.5)] *)
Definition ceil_half (num_questions : Z) : exn + Z :=
  match float_of_int num_questions with
  | None => inl OverflowError
  | Some x => match ceil (fmul x f_0_5) with
              | Some n => inr n
              | None => inl OverflowError
              end
  end.

(** Lines 86-118 *)
Definition quiz_prompt (program_text : string)
  (num_questions desired_mcq desired_open : Z) : string :=
  join_lines [
    "";
    "    Sei un generatore di quiz in italiano per studenti universitari.";
    "    Crea domande a partire dal testo fornito.";
    "    ";
    "    OBIETTIVO:";
    "    - Genera ESATTAMENTE " ++ str_of_int num_questions ++ " domande.";
    "    - Circa " ++ str_of_int desired_mcq
      ++ " domande devono essere a risposta multipla ("
      ++ dq ++ "mcq" ++ dq ++ ").";
    "    - Circa " ++ str_of_int desired_open
      ++ " domande devono essere a completamento ("
      ++ dq ++ "open" ++ dq ++ ") con una sola parola.";
    "    - NO formule, solo teoria.";
    "";
    "    FORMATO DI USCITA (JSON PURO):";
    "    {";
    "      " ++ dq ++ "questions" ++ dq ++ ": [";
    "        {";
    "          " ++ dq ++ "text" ++ dq ++ ": " ++ dq ++ "domanda..." ++ dq ++ ",";
    "          " ++ dq ++ "qtype" ++ dq ++ ": " ++ dq ++ "mcq" ++ dq ++ ",";
    "          " ++ dq ++ "options" ++ dq ++ ": ["
      ++ dq ++ "A" ++ dq ++ ", " ++ dq ++ "B" ++ dq ++ ", "
      ++ dq ++ "C" ++ dq ++ ", " ++ dq ++ "D" ++ dq ++ "],";
    "          " ++ dq ++ "answer" ++ dq ++ ": " ++ dq ++ "A" ++ dq;
    "        },";
    "        {";
    "          " ++ dq ++ "text" ++ dq ++ ": " ++ dq ++ "domanda..." ++ dq ++ ",";
    "          " ++ dq ++ "qtype" ++ dq ++ ": " ++ dq ++ "open" ++ dq ++ ",";
    "          " ++ dq ++ "options" ++ dq ++ ": null,";
    "          " ++ dq ++ "answer" ++ dq ++ ": " ++ dq ++ "parola_singola" ++ dq;
    "        }";
    "      ]";
    "    }";
    "    ";
    "    Non aggiungere altro testo prima o dopo il JSON.";
    "";
    "    TESTO:";
    "    " ++ program_text;
    "    " ].

(** Lines 147-157 *)
Definition flashcards_prompt (program_text : string) (num_cards : Z)
  : string :=
  join_lines [
    "";
    "    Crea " ++ str_of_int num_cards
      ++ " flashcard basate su questo testo: "
      ++ dq ++ program_text ++ dq ++ ".";
    "    ";
    "    STRUTTURA RICHIESTA (JSON ARRAY):";
    "    [";
    "        {" ++ dq ++ "front" ++ dq ++ ": " ++ dq ++ "Domanda o Concetto" ++ dq
      ++ ", " ++ dq ++ "back" ++ dq ++ ": " ++ dq ++ "Risposta o Definizione"
      ++ dq ++ "},";
    "        {" ++ dq ++ "front" ++ dq ++ ": " ++ dq ++ "..." ++ dq
      ++ ", " ++ dq ++ "back" ++ dq ++ ": " ++ dq ++ "..." ++ dq ++ "}";
    "    ]";
    "    ";
    "    Output SOLO JSON valido. Niente testo introduttivo.";
    "    " ].

(** What [requests.post] comes back with: no response at all, or a status
    and a body. *)
Inductive Reply : Type :=
| NoReply
| Response (status : Z) (body : string).

(** Line 138 *)
Definition unexpected_format : exn :=
  RuntimeError "Formato JSON imprevisto (manca chiave 'questions')".

(** Lines 133-138: the accepted shapes of the parsed payload. *)
Definition select_questions (parsed : json) : exn + json :=
  match parsed with
  | JArr _ => inr parsed
  | _ =>
      match py_in "questions" parsed with
      | inl e => inl e
      | inr true => getitem_key parsed "questions"
      | inr false => inl unexpected_format
      end
  end.

Section Service.

(** The completion service, as a function of the prompt posted, and
    [json.loads], [None] being its [JSONDecodeError]. *)
Variable service : string -> Reply.
Variable json_loads : string -> option json.

(** The database engine, for what the file does not fix: the text it
    stores in a [Text] column for a value that is neither a string nor
    null, if it can bind the value at all, and the exception of a commit
    that fails for another reason than a null alone. *)
Variable bind_other : json -> option string.
Variable commit_error : list Flashcard -> exn.

(** [requests.post(GEMINI_URL, ..., json=payload)] followed by
    [resp.raise_for_status()].  The prompt is the only varying part of the
    payload. *)
Definition requests_post (prompt : string) : M string :=
  fun w =>
    let w' := {| sent := (sent w ++ [prompt])%list;
                 printed := printed w; decks := decks w |} in
    match service prompt with
    | NoReply => (inl ConnectionError, w')
    | Response status body =>
        if (400 <=? status) && (status <? 600)
        then (inl (HTTPError status), w')
        else (inr body, w')
    end.

Definition loads (s : string) : exn + json :=
  match json_loads s with Some j => inr j | None => inl JSONDecodeError end.

Definition and_then {A B : Type} (r : exn + A) (k : A -> exn + B)
  : exn + B :=
  match r with inl e => inl e | inr a => k a end.

(** [resp.json()["candidates"][0]["content"]["parts"][0]["text"]] *)
Definition candidate_text (body : string) : exn + json :=
  and_then (loads body) (fun j =>
  and_then (getitem_key j "candidates") (fun j =>
  and_then (getitem_index j 0) (fun j =>
  and_then (getitem_key j "content") (fun j =>
  and_then (getitem_key j "parts") (fun j =>
  and_then (getitem_index j 0) (fun j =>
  getitem_key j "text")))))).

(** [clean_gemini_json(text)] on a value that may not be a [str]: the
    call of [strip] fails on anything else. *)
Definition clean_value (text : json) : exn + string :=
  match text with
  | JStr s => inr (clean_gemini_json s)
  | _ => inl AttributeError
  end.

(** Lines 124-138: the [try] block.  A failure comes with the binding of
    the local [text] at the time it is raised. *)
Definition quiz_try (body : string) : (option json * exn) + json :=
  match candidate_text body with
  | inl e => inl (None, e)
  | inr text =>
      match clean_value text with
      | inl e => inl (Some text, e)
      | inr text =>
          match and_then (loads text) select_questions with
          | inl e => inl (Some (JStr text), e)
          | inr questions => inr questions
          end
      end
  end.

(** Lines 140-143: the [except] clause.  Its [print] reads [text], which
    is unbound when the failure came before the first assignment. *)
Definition quiz_except (text : option json) (e : exn) : M json :=
  match text with
  | None => raise UnboundLocalError
  | Some t =>
      _ <- print "Errore RAW text da Gemini: " t ;;
      raise (RuntimeErrorFrom "Errore parsing Gemini: " e)
  end.

Definition generate_quiz_logic (program_text : string) (num_questions : Z)
  : M json :=
  if num_questions <=? 0
  then raise (ValueError "Il numero di domande deve essere > 0")
  else
    desired_mcq <- lift (ceil_half num_questions) ;;
    let desired_open := num_questions - desired_mcq in
    let full_prompt :=
      quiz_prompt program_text num_questions desired_mcq desired_open in
    body <- requests_post full_prompt ;;
    match quiz_try body with
    | inl (text, e) => quiz_except text e
    | inr questions => ret questions
    end.

Definition generate_flashcards_logic (program_text : string) (num_cards : Z)
  : M json :=
  let prompt := flashcards_prompt program_text num_cards in
  body <- requests_post prompt ;;
  match and_then (candidate_text body) (fun text =>
        and_then (clean_value text) loads) with
  | inl e => raise (RuntimeErrorFrom "Errore generazione flashcard: " e)
  | inr cards => ret cards
  end.

(** ** The flashcard branch of the [/generate] route *)

(** Line 202 *)
Definition deck_title (program_text : string) : string :=
  replace nl " " (slice program_text 0 50) ++ "...".

(** The key the store gives a new row: one more than the largest in use. *)
Definition next_id (ds : list Deck) : Z :=
  1 + fold_right (fun d acc => Z.max (deck_id d) acc) 0 ds.

(** Lines 204-206: the deck is added and committed, without cards. *)
Definition create_deck (title : string) : M Deck :=
  fun w =>
    let d := {| deck_id := next_id (decks w); topic := title; cards := [] |} in
    (inr d, {| sent := sent w; printed := printed w;
               decks := (decks w ++ [d])%list |}).

(** Line 209 *)
Definition make_card (c : json) : exn + Flashcard :=
  and_then (getitem_key c "front") (fun f =>
  and_then (getitem_key c "back") (fun b =>
  inr {| front := f; back := b |})).

Fixpoint make_cards (items : list json) : exn + list Flashcard :=
  match items with
  | [] => inr []
  | c :: rest =>
      and_then (make_card c) (fun card =>
      and_then (make_cards rest) (fun others => inr (card :: others)))
  end.

(** What a [Text] column declared [nullable=False] (lines 25-26) holds for
    a value: a string as it is, nothing for null. *)
Definition stored_text (v : json) : option string :=
  match v with
  | JStr s => Some s
  | JNull => None
  | _ => bind_other v
  end.

Definition bindable (v : json) : bool :=
  match v with
  | JNull => true
  | _ => match stored_text v with Some _ => true | None => false end
  end.

Definition store_card (c : Flashcard) : option Flashcard :=
  match stored_text (front c), stored_text (back c) with
  | Some f, Some b => Some {| front := JStr f; back := JStr b |}
  | _, _ => None
  end.

Fixpoint store_rows (cs : list Flashcard) : option (list Flashcard) :=
  match cs with
  | [] => Some []
  | c :: rest =>
      match store_card c, store_rows rest with
      | Some row, Some rows => Some (row :: rows)
      | _, _ => None
      end
  end.

(** The rows of one commit are stored together or not at all.  When every
    value can be bound and the commit still fails, a null has met the
    constraint of its column. *)
Definition store_cards (cs : list Flashcard) : exn + list Flashcard :=
  match store_rows cs with
  | Some rows => inr rows
  | None =>
      if forallb (fun c => bindable (front c) && bindable (back c)) cs
      then inl IntegrityError
      else inl (commit_error cs)
  end.

(** Line 211: the cards added in the loop are committed for the deck; a
    commit that fails raises and stores none of them. *)
Definition commit_cards (d : Deck) (cs : list Flashcard) : M unit :=
  fun w =>
    match store_cards cs with
    | inl e => (inl e, w)
    | inr rows =>
        (inr tt,
         {| sent := sent w; printed := printed w;
            decks := map (fun d' => if deck_id d' =? deck_id d
                                    then {| deck_id := deck_id d';
                                            topic := topic d';
                                            cards := (cards d' ++ rows)%list |}
                                    else d') (decks w) |})
    end.

Inductive GenerateResponse : Type :=
| RedirectIndex (flash : string) (cause : exn)
| RedirectDeck (id : Z).

(** Lines 198-217, for a text and a count that passed the checks of the
    route. *)
Definition flashcards_path (program_text : string) (count : Z)
  : M GenerateResponse :=
  try_except
    (cards_data <- generate_flashcards_logic program_text count ;;
     let title := deck_title program_text in
     new_deck <- create_deck title ;;
     items <- lift (py_iter cards_data) ;;
     cs <- lift (make_cards items) ;;
     _ <- commit_cards new_deck cs ;;
     ret (RedirectDeck (deck_id new_deck)))
    (fun e => ret (RedirectIndex "Errore Flashcard: " e)).

End Service.

(** ** Vocabulary of the statements *)

(** Character [c] stands at some position of [s]; at position [i] and
    nowhere before; at position [j] and nowhere after. *)
Definition occurs (c : ascii) (s : string) : Prop :=
  exists i, get i s = Some c.

Definition first_at (c : ascii) (s : string) (i : nat) : Prop :=
  get i s = Some c /\ forall k, (k < i)%nat -> get k s <> Some c.

Definition last_at (c : ascii) (s : string) (j : nat) : Prop :=
  get j s = Some c /\ forall k, (j < k)%nat -> get k s <> Some c.

(** The characters of [s] at the positions [i] to [j], both included;
    nothing when [j] is before [i]. *)
Definition between (s : string) (i j : nat) : string :=
  substring i (S j - i) s.

(** The payload is an object: an opening brace occurs, and either no
    opening bracket does or the first brace is strictly before the first
    bracket. *)
Definition is_object (s : string) : Prop :=
  occurs "{" s
  /\ (~ occurs "[" s
      \/ exists i k, first_at "{" s i /\ first_at "[" s k /\ (i < k)%nat).

(** A start and an end of the payload are both found. *)
Definition pair_found (s : string) : Prop :=
  (is_object s /\ occurs "}" s)
  \/ (~ is_object s /\ occurs "[" s /\ occurs "]" s).

(** The characters of [s] that satisfy [p], in order. *)
Fixpoint sfilter (p : ascii -> bool) (s : string) : string :=
  match s with
  | EmptyString => EmptyString
  | String c s' => if p c then String c (sfilter p s') else sfilter p s'
  end.

Definition bracket (c : ascii) : bool :=
  (Ascii.eqb c "{" || Ascii.eqb c "[" || Ascii.eqb c "}" || Ascii.eqb c "]")%bool.

Definition is_open (c : ascii) : bool :=
  (Ascii.eqb c "{" || Ascii.eqb c "[")%bool.

(** The answer [ans] matches question [q]: exactly for a multiple-choice
    question, up to case for any other. *)
Definition matches (q : Question) (ans : string) : Prop :=
  (qtype q = "mcq" /\ ans = answer q)
  \/ (qtype q <> "mcq" /\ lower ans = lower (answer q)).

(** The outcome [res] the rules give the stripped answer [ans] to [q]. *)
Definition graded_as (q : Question) (ans res : string) : Prop :=
  (ans = "" /\ res = "blank")
  \/ (ans <> "" /\ matches q ans /\ res = "correct")
  \/ (ans <> "" /\ ~ matches q ans /\ res = "wrong").

(** The outcome and the entry of [details] the loop body computes for
    question [q] at index [i]. *)
Definition step_result (form : Form) (i : nat) (q : Question) : string :=
  let ans := submitted form i in
  if is_empty ans then "blank"
  else if (if String.eqb (qtype q) "mcq"
           then String.eqb ans (answer q)
           else String.eqb (lower ans) (lower (answer q)))
       then "correct" else "wrong".

Definition step_detail (form : Form) (i : nat) (q : Question) : Detail :=
  {| d_text := text q; user_answer := submitted form i;
     correct_answer := answer q; result := step_result form i q |}.

Fixpoint new_details (form : Form) (i : nat) (questions : list Question)
  : list Detail :=
  match questions with
  | [] => []
  | q :: rest => step_detail form i q :: new_details form (S i) rest
  end.

(** How many entries of [ds] carry the outcome [res]. *)
Definition count_result (res : string) (ds : list Detail) : Z :=
  Z.of_nat (List.length (filter (fun d => String.eqb (result d) res) ds)).

(** The score the specification describes: one point per correct outcome
    less a tenth per wrong one, as a decimal with two places. *)
Definition decimal_score (n_correct n_wrong : Z) : string :=
  let tenths := 10 * n_correct - n_wrong in
  (if tenths <? 0 then "-" else "")
    ++ str_of_int (Z.abs tenths / 10) ++ "."
    ++ str_of_int (Z.abs tenths mod 10) ++ "0".

Definition mcq_question (a : string) : Question :=
  {| text := "t"; qtype := "mcq"; options := Some [a; "B"]; answer := a |}.

Definition open_question (a : string) : Question :=
  {| text := "t"; qtype := "open"; options := None; answer := a |}.

(** A form that answers question [i] and the following ones with the
    strings of [answers]. *)
Fixpoint form_of (i : nat) (answers : list string) : Form :=
  match answers with
  | [] => []
  | a :: rest => ("q" ++ str_of_nat i, a) :: form_of (S i) rest
  end.

(** The first [n] characters of [s], and [s] with [f] applied to each
    character. *)
Fixpoint take (n : nat) (s : string) : string :=
  match n, s with
  | S n', String c s' => String c (take n' s')
  | _, _ => EmptyString
  end.

Fixpoint map_chars (f : ascii -> ascii) (s : string) : string :=
  match s with
  | EmptyString => EmptyString
  | String c s' => String (f c) (map_chars f s')
  end.

Definition newline_to_space (c : ascii) : ascii :=
  if Ascii.eqb c (ascii_of_nat 10) then " "%char else c.

(** The topic label the specification describes. *)
Definition topic_label (source_text : string) : string :=
  map_chars newline_to_space (take 50 source_text) ++ "...".

(** A completion service that answers every prompt with status 200 and
    the body "R", and a parser that reads "R" as the envelope of a
    candidate whose text is [payload] and reads [payload] as [parsed]. *)
Definition sample_service (prompt : string) : Reply := Response 200 "R".

Definition envelope (payload : string) : json :=
  JObj [("candidates",
         JArr [JObj [("content",
                      JObj [("parts",
                             JArr [JObj [("text", JStr payload)]])])]])].

Definition sample_loads (payload : string) (parsed : json) (s : string)
  : option json :=
  if String.eqb s "R" then Some (envelope payload)
  else if String.eqb s payload then Some parsed
  else None.

Definition world0 : World := {| sent := []; printed := []; decks := [] |}.

(** An engine that binds strings and nulls only and fails with a
    [TypeError] otherwise, and a quiz page that always renders. *)
Definition strings_only (v : json) : option string := None.

Definition sample_commit_error (cs : list Flashcard) : exn := TypeError.

Definition always_renders (questions : json) : option exn := None.

(** The completion for the quiz prompt arrives with a status that is not
    an error, carries a text, and the text extracted from it parses as
    [parsed]. *)
Definition completion_parses (service : string -> Reply)
  (json_loads : string -> option json) (program_text : string) (count : Z)
  (parsed : json) : Prop :=
  exists m status body raw,
    ceil_half count = inr m
    /\ service (quiz_prompt program_text count m (count - m))
       = Response status body
    /\ ((400 <=? status) && (status <? 600))%bool = false
    /\ candidate_text json_loads body = inr (JStr raw)
    /\ json_loads (clean_gemini_json raw) = Some parsed.

(** ** The routes on stored values *)

(** [c.isdigit()] on the Latin-1 range: the decimal digits and the
    superscripts two, three and one. *)
Definition isdigit_char (c : ascii) : bool :=
  let n := nat_of_ascii c in
  ((48 <=? n) && (n <=? 57) || (n =? 178) || (n =? 179) || (n =? 185))%nat.

Definition is_decimal_char (c : ascii) : bool :=
  let n := nat_of_ascii c in ((48 <=? n) && (n <=? 57))%nat.

Fixpoint all_chars (p : ascii -> bool) (s : string) : bool :=
  match s with
  | EmptyString => true
  | String c s' => p c && all_chars p s'
  end.

(** [s.isdigit()] *)
Definition isdigit (s : string) : bool :=
  negb (is_empty s) && all_chars isdigit_char s.

Fixpoint decimal_value (acc : Z) (s : string) : Z :=
  match s with
  | EmptyString => acc
  | String c s' =>
      decimal_value (10 * acc + (Z.of_nat (nat_of_ascii c) - 48)) s'
  end.

(** [bool(j)] *)
Definition truthy (j : json) : bool :=
  match j with
  | JNull => false
  | JBool b => b
  | JInt n => negb (n =? 0)
  | JFloat x => match x with S754_zero _ => false | _ => true end
  | JStr s => negb (is_empty s)
  | JArr l => match l with [] => false | _ => true end
  | JObj m => match m with [] => false | _ => true end
  end.

(** [len(j)] *)
Definition py_len (j : json) : exn + Z :=
  match j with
  | JArr l => inr (Z.of_nat (List.length l))
  | JObj m => inr (Z.of_nat (List.length m))
  | JStr s => inr (Z.of_nat (String.length s))
  | _ => inl TypeError
  end.

(** [j == s] for a string [s] *)
Definition equals_str (j : json) (s : string) : bool :=
  match j with JStr s' => String.eqb s' s | _ => false end.

(** [j.lower()] *)
Definition lower_value (j : json) : exn + string :=
  match j with JStr s => inr (lower s) | _ => inl AttributeError end.

(** A flashed message: a constant, or a constant followed by the text of
    an exception. *)
Inductive Flash : Type :=
| Message (msg : string)
| MessageWith (msg : string) (e : exn).

(** What the [/generate] route answers: a redirect to the form with a
    flashed message, the quiz page, a redirect to a deck, or an exception
    that no handler caught. *)
Inductive PageResponse : Type :=
| RedirectToIndex (f : Flash)
| RenderQuiz (questions : json)
| RedirectToDeck (id : Z)
| Unhandled (e : exn).

Section Routes.

Variable service : string -> Reply.
Variable json_loads : string -> option json.

Variable bind_other : json -> option string.
Variable commit_error : list Flashcard -> exn.

(** The limit on the digits of a string [int] converts, when the
    interpreter has one, and the text of the error of [int]. *)
Variable max_str_digits : option nat.
Variable int_error : string -> string.

(** The template of the quiz page is not in the file: rendering it for
    the questions raises an exception, or does not. *)
Variable render_quiz : json -> option exn.

(** [int(s)] for a string that passed [isdigit]: the superscripts are no
    decimal digits, and a string longer than the limit is refused. *)
Definition py_int (s : string) : exn + Z :=
  if negb (is_empty s) && all_chars is_decimal_char s
     && match max_str_digits with
        | Some n => (String.length s <=? n)%nat
        | None => true
        end
  then inr (decimal_value 0 s)
  else inl (ValueError (int_error s)).

(** Lines 178-227.  The session is the value stored under [questions], if
    any; a flashed message is part of the response.  On the quiz branch the
    session is written before the page is rendered, inside the [try]: a
    rendering that raises is flashed like any other failure, with the
    session already changed. *)
Definition generate_quiz (form : Form) (session : option json) (w : World)
  : PageResponse * option json * World :=
  let program_text := strip (form_get form "program_text" "") in
  let num_input := strip (form_get form "num_questions" "") in
  let action := form_get form "action" "quiz" in
  if is_empty program_text then
    (RedirectToIndex (Message "Devi incollare il contenuto del programma."),
     session, w)
  else if negb (isdigit num_input) then
    (RedirectToIndex (Message "Numero non valido."), session, w)
  else
    match py_int num_input with
    | inl e => (Unhandled e, session, w)
    | inr count =>
        if (count <=? 0) || (50 <? count) then
          (RedirectToIndex (Message "Il numero deve essere tra 1 e 50."),
           session, w)
        else if String.eqb action "flashcards" then
          match flashcards_path service json_loads bind_other commit_error
                                program_text count w with
          | (inr (RedirectDeck id), w') => (RedirectToDeck id, session, w')
          | (inr (RedirectIndex msg e), w') =>
              (RedirectToIndex (MessageWith msg e), session, w')
          | (inl e, w') => (Unhandled e, session, w')
          end
        else
          match generate_quiz_logic service json_loads program_text count w
          with
          | (inr questions, w') =>
              match render_quiz questions with
              | None => (RenderQuiz questions, Some questions, w')
              | Some e =>
                  (RedirectToIndex (MessageWith "Errore Quiz: " e),
                   Some questions, w')
              end
          | (inl e, w') =>
              (RedirectToIndex (MessageWith "Errore Quiz: " e), session, w')
          end
    end.

End Routes.

(** *** [submit_quiz] on the stored questions *)

(** One entry of [details], with the values as the question holds them. *)
Record StoredDetail : Type := {
  s_text : json;
  s_user_answer : string;
  s_correct_answer : json;
  s_result : string
}.

Record StoredTally : Type := {
  s_score : float;
  s_correct : Z;
  s_wrong : Z;
  s_blank : Z;
  s_details : list StoredDetail
}.

(** Lines 240-263 for a question [q] as stored: a subscript on it or a
    method of its answer can raise. *)
Definition grade_step_stored (form : Form) (t : StoredTally) (i : nat)
  (q : json) : exn + StoredTally :=
  let ans := submitted form i in
  and_then
    (if is_empty ans then
       inr (s_score t, s_correct t, s_wrong t, s_blank t + 1, "blank")
     else
       and_then (getitem_key q "qtype") (fun qt =>
       and_then
         (if equals_str qt "mcq"
          then and_then (getitem_key q "answer") (fun a =>
               inr (equals_str a ans))
          else and_then (getitem_key q "answer") (fun a =>
               and_then (lower_value a) (fun la =>
               inr (String.eqb (lower ans) la))))
         (fun is_correct : bool =>
            if is_correct
            then inr (fadd (s_score t) f_1_0, s_correct t + 1, s_wrong t,
                      s_blank t, "correct")
            else inr (fsub (s_score t) f_0_1, s_correct t, s_wrong t + 1,
                      s_blank t, "wrong"))))
    (fun '(sc, c, wr, b, res) =>
       and_then (getitem_key q "text") (fun tx =>
       and_then (getitem_key q "answer") (fun a =>
       inr {| s_score := sc; s_correct := c; s_wrong := wr; s_blank := b;
              s_details :=
                (s_details t
                 ++ [ {| s_text := tx; s_user_answer := ans;
                         s_correct_answer := a; s_result := res |} ])%list
           |}))).

Fixpoint grade_loop_stored (form : Form) (t : StoredTally) (i : nat)
  (items : list json) : exn + StoredTally :=
  match items with
  | [] => inr t
  | q :: rest =>
      and_then (grade_step_stored form t i q) (fun t' =>
      grade_loop_stored form t' (S i) rest)
  end.

Definition stored_tally0 : StoredTally :=
  {| s_score := f_0_0; s_correct := 0; s_wrong := 0; s_blank := 0;
     s_details := [] |}.

Record StoredResult : Type := {
  sr_total : Z;
  sr_correct : Z;
  sr_wrong : Z;
  sr_blank : Z;
  sr_score : string;
  sr_details : list StoredDetail
}.

Inductive StoredResponse : Type :=
| StoredNoActiveQuiz (flash : string)
| StoredRenderResult (r : StoredResult)
| StoredUnhandled (e : exn).

(** Lines 229-266 on the session as the [/generate] route leaves it.  An
    exception leaves the session as it was; the session is cleared once the
    loop is through. *)
Definition submit_quiz_stored (session : option json) (form : Form)
  : StoredResponse * option json :=
  match session with
  | None => (StoredNoActiveQuiz "Nessun quiz attivo.", session)
  | Some questions =>
      if negb (truthy questions)
      then (StoredNoActiveQuiz "Nessun quiz attivo.", session)
      else
        match and_then (py_iter questions)
                       (grade_loop_stored form stored_tally0 0) with
        | inl e => (StoredUnhandled e, session)
        | inr t =>
            match py_len questions with
            | inl e => (StoredUnhandled e, None)
            | inr n =>
                (StoredRenderResult
                   {| sr_total := n; sr_correct := s_correct t;
                      sr_wrong := s_wrong t; sr_blank := s_blank t;
                      sr_score := format_2f (s_score t);
                      sr_details := s_details t |},
                 None)
            end
        end
  end.

(** *** [view_flashcards] *)

Inductive DeckResponse : Type :=
| RenderDeck (d : Deck)
| NotFound404.

(** Lines 270-273.  The URL converter admits no negative id. *)
Definition view_flashcards (id : Z) (w : World) : DeckResponse :=
  if id <? 0 then NotFound404
  else match List.find (fun d => deck_id d =? id) (decks w) with
       | Some d => RenderDeck d
       | None => NotFound404
       end.

(** The world once [prompt] has been posted. *)
Definition posted (w : World) (prompt : string) : World :=
  {| sent := (sent w ++ [prompt])%list; printed := printed w;
     decks := decks w |}.

(** A failure of the transport: no answer, or an answer with an error
    status. *)
Definition transport_error (e : exn) : Prop :=
  e = ConnectionError
  \/ exists status, e = HTTPError status /\ 400 <= status < 600.

(** The stored value [j] is the dictionary of question [q]: an object
    whose [text], [qtype] and [answer] are the strings of [q]. *)
Definition holds (j : json) (q : Question) : Prop :=
  exists m, j = JObj m
            /\ assoc "text" m = Some (JStr (text q))
            /\ assoc "qtype" m = Some (JStr (qtype q))
            /\ assoc "answer" m = Some (JStr (answer q)).

Definition stored_detail (d : Detail) : StoredDetail :=
  {| s_text := JStr (d_text d); s_user_answer := user_answer d;
     s_correct_answer := JStr (correct_answer d); s_result := result d |}.

Definition stored_tally (t : Tally) : StoredTally :=
  {| s_score := score t; s_correct := correct t; s_wrong := wrong t;
     s_blank := blank t; s_details := map stored_detail (details t) |}.

Definition stored_response (r : SubmitResponse) : StoredResponse :=
  match r with
  | NoActiveQuiz msg => StoredNoActiveQuiz msg
  | RenderResult r =>
      StoredRenderResult
        {| sr_total := total r; sr_correct := r_correct r;
           sr_wrong := r_wrong r; sr_blank := r_blank r;
           sr_score := r_score r;
           sr_details := map stored_detail (r_details r) |}
  end.

(** * Properties *)

(** ** Searching for one character *)

Lemma prefix_empty (s : string) : prefix "" s = true.
Proof. destruct s; reflexivity. Qed.

Lemma prefix_one (c a : ascii) (s : string) :
  prefix (String c "") (String a s) = Ascii.eqb c a.
Proof.
  simpl. destruct (ascii_dec c a) as [->|Hne].
  - rewrite prefix_empty, Ascii.eqb_refl. reflexivity.
  - symmetry. apply Ascii.eqb_neq. exact Hne.
Qed.

Lemma get_lt (s : string) : forall i c, get i s = Some c -> (i < String.length s)%nat.
Proof.
  induction s as [|a s IH]; intros i c H; simpl in *.
  - discriminate.
  - destruct i as [|i]; [lia|]. apply IH in H. lia.
Qed.

Lemma occurs_nil (c : ascii) : ~ occurs c "".
Proof. intros [i H]. destruct i; discriminate. Qed.

Lemma occurs_cons (c a : ascii) (s : string) :
  occurs c (String a s) <-> a = c \/ occurs c s.
Proof.
  split.
  - intros [[|i] H]; simpl in H.
    + left. congruence.
    + right. exists i. exact H.
  - intros [->|[i H]].
    + exists 0%nat. reflexivity.
    + exists (S i). exact H.
Qed.

Lemma first_at_here (c : ascii) (s : string) : first_at c (String c s) 0.
Proof. split; [reflexivity|]. intros k Hk. lia. Qed.

Lemma first_at_later (c a : ascii) (s : string) (i : nat) :
  a <> c -> first_at c s i -> first_at c (String a s) (S i).
Proof.
  intros Hne [Hget Hbefore]. split; [exact Hget|].
  intros [|k] Hk; simpl.
  - congruence.
  - apply Hbefore. lia.
Qed.

Lemma first_at_cons_inv (c a : ascii) (s : string) (i : nat) :
  first_at c (String a s) i ->
  (a = c /\ i = 0%nat) \/ (a <> c /\ exists i', i = S i' /\ first_at c s i').
Proof.
  intros [Hget Hbefore]. destruct i as [|i]; simpl in Hget.
  - left. split; congruence.
  - right. split.
    + intros ->. apply (Hbefore 0%nat); [lia|reflexivity].
    + exists i. split; [reflexivity|]. split; [exact Hget|].
      intros k Hk. apply (Hbefore (S k)). lia.
Qed.

Lemma first_at_unique (c : ascii) (s : string) (i i' : nat) :
  first_at c s i -> first_at c s i' -> i = i'.
Proof.
  intros [Hi Bi] [Hi' Bi'].
  destruct (Nat.lt_trichotomy i i') as [H|[H|H]]; [|exact H|].
  - exfalso. exact (Bi' i H Hi).
  - exfalso. exact (Bi i' H Hi').
Qed.

Lemma last_at_unique (c : ascii) (s : string) (j j' : nat) :
  last_at c s j -> last_at c s j' -> j = j'.
Proof.
  intros [Hj Aj] [Hj' Aj'].
  destruct (Nat.lt_trichotomy j j') as [H|[H|H]]; [|exact H|].
  - exfalso. exact (Aj j' H Hj').
  - exfalso. exact (Aj' j H Hj).
Qed.

Lemma find_one_cons (c a : ascii) (s : string) :
  find (String c "") (String a s)
  = if Ascii.eqb c a then 0
    else if find (String c "") s =? -1 then -1 else find (String c "") s + 1.
Proof.
  change (find (String c "") (String a s))
    with (if prefix (String c "") (String a s) then 0
          else if find (String c "") s =? -1 then -1
               else find (String c "") s + 1).
  rewrite prefix_one. reflexivity.
Qed.

Lemma rfind_one_cons (c a : ascii) (s : string) :
  rfind (String c "") (String a s)
  = if rfind (String c "") s =? -1
    then (if Ascii.eqb c a then 0 else -1)
    else rfind (String c "") s + 1.
Proof.
  change (rfind (String c "") (String a s))
    with (if rfind (String c "") s =? -1
          then (if prefix (String c "") (String a s) then 0 else -1)
          else rfind (String c "") s + 1).
  rewrite prefix_one. reflexivity.
Qed.

(** [find] with a one-character pattern: [-1] exactly when the character
    does not occur, and otherwise the position of its first occurrence. *)
Lemma find_one_spec (c : ascii) (s : string) :
  (find (String c "") s = -1 /\ ~ occurs c s)
  \/ (exists i, find (String c "") s = Z.of_nat i /\ first_at c s i).
Proof.
  induction s as [|a s IH].
  - left. split; [reflexivity|apply occurs_nil].
  - rewrite find_one_cons. destruct (Ascii.eqb_spec c a) as [<-|Hne].
    + right. exists 0%nat. split; [reflexivity|apply first_at_here].
    + destruct IH as [[Hf Hno]|[i [Hf Hi]]]; rewrite Hf.
      * left. split; [reflexivity|].
        rewrite occurs_cons. intros [Heq|Hocc]; [congruence|tauto].
      * right. exists (S i). split.
        -- destruct (Z.eqb_spec (Z.of_nat i) (-1)); lia.
        -- apply first_at_later; [congruence|exact Hi].
Qed.

(** [rfind] with a one-character pattern, likewise for the last
    occurrence. *)
Lemma rfind_one_spec (c : ascii) (s : string) :
  (rfind (String c "") s = -1 /\ ~ occurs c s)
  \/ (exists j, rfind (String c "") s = Z.of_nat j /\ last_at c s j).
Proof.
  induction s as [|a s IH].
  - left. split; [reflexivity|apply occurs_nil].
  - rewrite rfind_one_cons.
    destruct IH as [[Hf Hno]|[j [Hf [Hj Hafter]]]]; rewrite Hf.
    + simpl (-1 =? -1). cbv iota.
      destruct (Ascii.eqb_spec c a) as [<-|Hne].
      * right. exists 0%nat. split; [reflexivity|]. split; [reflexivity|].
        intros [|k] Hk; [lia|]. simpl. intros H. apply Hno. exists k. exact H.
      * left. split; [reflexivity|].
        rewrite occurs_cons. intros [Heq|Hocc]; [congruence|tauto].
    + right. exists (S j). split.
      * destruct (Z.eqb_spec (Z.of_nat j) (-1)); lia.
      * split; [exact Hj|]. intros [|k] Hk; [lia|]. simpl. apply Hafter. lia.
Qed.

Lemma first_at_occurs (c : ascii) (s : string) (i : nat) :
  first_at c s i -> occurs c s.
Proof. intros [H _]. exists i. exact H. Qed.

Lemma last_at_occurs (c : ascii) (s : string) (j : nat) :
  last_at c s j -> occurs c s.
Proof. intros [H _]. exists j. exact H. Qed.

Lemma find_one_first (c : ascii) (s : string) (i : nat) :
  first_at c s i -> find (String c "") s = Z.of_nat i.
Proof.
  intros Hi. destruct (find_one_spec c s) as [[_ Hno]|[i' [Hf Hi']]].
  - exfalso. apply Hno. eapply first_at_occurs. exact Hi.
  - rewrite Hf. f_equal. eapply first_at_unique; eassumption.
Qed.

Lemma rfind_one_last (c : ascii) (s : string) (j : nat) :
  last_at c s j -> rfind (String c "") s = Z.of_nat j.
Proof.
  intros Hj. destruct (rfind_one_spec c s) as [[_ Hno]|[j' [Hf Hj']]].
  - exfalso. apply Hno. eapply last_at_occurs. exact Hj.
  - rewrite Hf. f_equal. eapply last_at_unique; eassumption.
Qed.

Lemma find_one_absent (c : ascii) (s : string) :
  ~ occurs c s -> find (String c "") s = -1.
Proof.
  intros Hno. destruct (find_one_spec c s) as [[Hf _]|[i [_ Hi]]].
  - exact Hf.
  - exfalso. apply Hno. eapply first_at_occurs. exact Hi.
Qed.

Lemma rfind_one_absent (c : ascii) (s : string) :
  ~ occurs c s -> rfind (String c "") s = -1.
Proof.
  intros Hno. destruct (rfind_one_spec c s) as [[Hf _]|[j [_ Hj]]].
  - exact Hf.
  - exfalso. apply Hno. eapply last_at_occurs. exact Hj.
Qed.

Lemma occurs_first (c : ascii) (s : string) :
  occurs c s -> exists i, first_at c s i.
Proof.
  intros Hocc. destruct (find_one_spec c s) as [[_ Hno]|[i [_ Hi]]].
  - contradiction.
  - exists i. exact Hi.
Qed.

Lemma occurs_last (c : ascii) (s : string) :
  occurs c s -> exists j, last_at c s j.
Proof.
  intros Hocc. destruct (rfind_one_spec c s) as [[_ Hno]|[j [_ Hj]]].
  - contradiction.
  - exists j. exact Hj.
Qed.

Lemma occurs_dec (c : ascii) (s : string) : occurs c s \/ ~ occurs c s.
Proof.
  destruct (find_one_spec c s) as [[_ Hno]|[i [_ Hi]]].
  - right. exact Hno.
  - left. eapply first_at_occurs. exact Hi.
Qed.

(** ** Slices *)

(** An inclusive range of positions inside the string is the slice the
    code takes. *)
Lemma slice_between (s : string) (i j : nat) (c d : ascii) :
  get i s = Some c -> get j s = Some d ->
  slice s (Z.of_nat i) (Z.of_nat j + 1) = between s i j.
Proof.
  intros Hi Hj. apply get_lt in Hi. apply get_lt in Hj.
  unfold slice, between, clamp_index.
  destruct (Z.ltb_spec (Z.of_nat i) 0); [lia|].
  destruct (Z.ltb_spec (Z.of_nat j + 1) 0); [lia|].
  f_equal; lia.
Qed.

Lemma between_inverted (s : string) (i j : nat) :
  (j < i)%nat -> between s i j = "".
Proof.
  intros H. unfold between. replace (S j - i)%nat with 0%nat by lia.
  generalize i. clear. induction s as [|a s IH]; intros [|i]; simpl; auto.
Qed.

Lemma substring_all (s : string) : substring 0 (String.length s) s = s.
Proof. induction s as [|a s IH]; simpl; [reflexivity|]. rewrite IH. reflexivity. Qed.

Lemma slice_prefix (s : string) (n : nat) :
  slice s 0 (Z.of_nat n) = substring 0 n s.
Proof.
  unfold slice, clamp_index.
  destruct (Z.ltb_spec (Z.of_nat n) 0); [lia|]. simpl (0 <? 0).
  cbv iota. rewrite Z.min_l by lia. rewrite Z.sub_0_r. simpl (Z.to_nat 0).
  destruct (Nat.le_gt_cases n (String.length s)) as [Hle|Hgt].
  - rewrite Z.min_l by lia. rewrite Nat2Z.id. reflexivity.
  - rewrite Z.min_r by lia. rewrite Nat2Z.id, substring_all.
    clear - Hgt. revert n Hgt.
    induction s as [|a s IH]; intros [|n] Hgt; simpl in *; try lia.
    + reflexivity.
    + rewrite <- IH by lia. reflexivity.
Qed.

(** ** The two branches of [payload_bounds] *)

Lemma payload_bounds_object (t : string) :
  is_object t ->
  exists i, first_at "{" t i /\ payload_bounds t = (Z.of_nat i, rfind "}" t).
Proof.
  intros [Hbrace Hbracket].
  destruct (occurs_first _ _ Hbrace) as [i Hi].
  exists i. split; [exact Hi|].
  unfold payload_bounds. rewrite (find_one_first _ _ _ Hi).
  destruct (Z.eqb_spec (Z.of_nat i) (-1)) as [E|_]; [lia|].
  destruct Hbracket as [Hno|[i' [k [Hi' [Hk Hlt]]]]].
  - rewrite (find_one_absent _ _ Hno). reflexivity.
  - rewrite (find_one_first _ _ _ Hk).
    assert (i' = i) by (eapply first_at_unique; eassumption). subst i'.
    destruct (Z.ltb_spec (Z.of_nat i) (Z.of_nat k)); [|lia].
    rewrite orb_true_r. reflexivity.
Qed.

Lemma payload_bounds_array (t : string) :
  ~ is_object t -> occurs "[" t ->
  exists k, first_at "[" t k /\ payload_bounds t = (Z.of_nat k, rfind "]" t).
Proof.
  intros Hnot Hbracket.
  destruct (occurs_first _ _ Hbracket) as [k Hk].
  exists k. split; [exact Hk|].
  unfold payload_bounds. rewrite (find_one_first _ _ _ Hk).
  destruct (find_one_spec "{" t) as [[Hf _]|[i [Hf Hi]]]; rewrite Hf.
  - simpl (negb (-1 =? -1)). cbv iota. simpl andb. cbv iota.
    destruct (Z.eqb_spec (Z.of_nat k) (-1)); [lia|reflexivity].
  - destruct (Z.eqb_spec (Z.of_nat k) (-1)); [lia|].
    destruct (Z.ltb_spec (Z.of_nat i) (Z.of_nat k)) as [Hlt|Hge].
    + exfalso. apply Hnot. split; [eapply first_at_occurs; exact Hi|].
      right. exists i, k. repeat split; try apply Hi; try apply Hk. lia.
    + rewrite andb_false_r. reflexivity.
Qed.

Lemma payload_bounds_none (t : string) :
  ~ occurs "{" t -> ~ occurs "[" t -> payload_bounds t = (-1, -1).
Proof.
  intros Hbrace Hbracket. unfold payload_bounds.
  rewrite (find_one_absent _ _ Hbrace), (find_one_absent _ _ Hbracket).
  reflexivity.
Qed.

Lemma is_object_dec (t : string) : is_object t \/ ~ is_object t.
Proof.
  destruct (find_one_spec "{" t) as [[_ Hno]|[i [_ Hi]]].
  - right. intros [H _]. contradiction.
  - destruct (find_one_spec "[" t) as [[_ Hno]|[k [_ Hk]]].
    + left. split; [eapply first_at_occurs; exact Hi|]. left. exact Hno.
    + destruct (Nat.lt_ge_cases i k) as [Hlt|Hge].
      * left. split; [eapply first_at_occurs; exact Hi|].
        right. exists i, k. auto.
      * right. intros [_ [Hno|[i' [k' [Hi' [Hk' Hlt]]]]]].
        -- apply Hno. eapply first_at_occurs. exact Hk.
        -- assert (i' = i) by (eapply first_at_unique; eassumption).
           assert (k' = k) by (eapply first_at_unique; eassumption).
           lia.
Qed.

(** ** What stripping and fence removal leave in place *)

Lemma sfilter_app (p : ascii -> bool) (a b : string) :
  sfilter p (a ++ b) = sfilter p a ++ sfilter p b.
Proof.
  induction a as [|c a IH]; simpl; [reflexivity|].
  destruct (p c); simpl; rewrite IH; reflexivity.
Qed.

Section Kept.

Variable p : ascii -> bool.
Hypothesis p_not_space : forall c, isspace c = true -> p c = false.

Lemma sfilter_lstrip (s : string) : sfilter p (lstrip s) = sfilter p s.
Proof.
  induction s as [|c s IH]; simpl; [reflexivity|].
  destruct (isspace c) eqn:E; [|reflexivity].
  rewrite (p_not_space c E). exact IH.
Qed.

Lemma sfilter_rstrip (s : string) : sfilter p (rstrip s) = sfilter p s.
Proof.
  induction s as [|c s IH]; simpl; [reflexivity|].
  destruct (rstrip s) as [|d r] eqn:E.
  - simpl in IH. rewrite <- IH.
    destruct (isspace c) eqn:Ec.
    + rewrite (p_not_space c Ec). reflexivity.
    + simpl. reflexivity.
  - change (sfilter p (String c (String d r)))
      with (if p c then String c (sfilter p (String d r))
            else sfilter p (String d r)).
    rewrite IH. reflexivity.
Qed.

Lemma sfilter_strip (s : string) : sfilter p (strip s) = sfilter p s.
Proof. unfold strip. rewrite sfilter_rstrip. apply sfilter_lstrip. Qed.

Lemma sfilter_replace_from (old new : string) :
  sfilter p old = "" -> sfilter p new = "" -> old <> "" ->
  forall s skip,
    sfilter p (substring 0 skip s) = "" ->
    sfilter p (replace_from old new skip s) = sfilter p s.
Proof.
  intros Hold Hnew Hne. induction s as [|c s IH]; intros skip Hskip.
  - reflexivity.
  - destruct skip as [|k].
    + change (replace_from old new 0 (String c s))
        with (if prefix old (String c s)
              then new ++ replace_from old new (String.length old - 1) s
              else String c (replace_from old new 0 s)).
      destruct (prefix old (String c s)) eqn:E.
      * destruct old as [|o old']; [congruence|].
        simpl in E. destruct (ascii_dec o c) as [->|]; [|discriminate].
        simpl in Hold. destruct (p c) eqn:Ec; [discriminate|].
        rewrite sfilter_app, Hnew. simpl. rewrite Ec.
        apply IH. apply prefix_correct in E.
        replace (String.length old' - 0)%nat with (String.length old')
          by lia.
        rewrite E. exact Hold.
      * simpl. rewrite IH by (destruct s; reflexivity). reflexivity.
    + simpl in Hskip. simpl. destruct (p c); [discriminate|].
      apply IH. exact Hskip.
Qed.

Lemma sfilter_replace (old new s : string) :
  sfilter p old = "" -> sfilter p new = "" -> old <> "" ->
  sfilter p (replace old new s) = sfilter p s.
Proof.
  intros Hold Hnew Hne. destruct old as [|o old']; [congruence|].
  unfold replace. apply sfilter_replace_from; auto.
  destruct s; reflexivity.
Qed.

Hypothesis p_not_fence : sfilter p "```json" = "".

Lemma sfilter_unfenced (s : string) : sfilter p (unfenced s) = sfilter p s.
Proof.
  unfold unfenced. destruct (contains "```" (strip s)).
  - rewrite !sfilter_replace; try discriminate; try reflexivity.
    + apply sfilter_strip.
    + exact p_not_fence.
    + simpl in p_not_fence. simpl.
      destruct (p "`"); [discriminate|reflexivity].
  - apply sfilter_strip.
Qed.

End Kept.

Lemma bracket_cases (c : ascii) :
  bracket c = true -> c = "{"%char \/ c = "["%char \/ c = "}"%char \/ c = "]"%char.
Proof.
  unfold bracket. rewrite !orb_true_iff, !Ascii.eqb_eq. tauto.
Qed.

Lemma bracket_not_space (c : ascii) : isspace c = true -> bracket c = false.
Proof.
  intros Hs. destruct (bracket c) eqn:E; [|reflexivity].
  destruct (bracket_cases c E) as [-> | [-> | [-> | ->]]]; discriminate Hs.
Qed.

Lemma bracket_not_fence (p : ascii -> bool) :
  (forall c, p c = true -> bracket c = true) -> sfilter p "```json" = "".
Proof.
  intros Hp.
  assert (H : forall c, bracket c = false -> p c = false).
  { intros c Hc. destruct (p c) eqn:E; [|reflexivity].
    rewrite (Hp c E) in Hc. discriminate. }
  simpl. rewrite !H by reflexivity. reflexivity.
Qed.

(** Stripping and fence removal neither add, drop nor reorder brackets. *)
Lemma sfilter_unfenced_bracket (p : ascii -> bool) (s : string) :
  (forall c, p c = true -> bracket c = true) ->
  sfilter p (unfenced s) = sfilter p s.
Proof.
  intros Hp. apply sfilter_unfenced.
  - intros c Hs. destruct (p c) eqn:E; [|reflexivity].
    specialize (Hp c E). rewrite (bracket_not_space c Hs) in Hp. discriminate.
  - apply bracket_not_fence. exact Hp.
Qed.

Lemma occurs_sfilter (c : ascii) (s : string) :
  occurs c s <-> sfilter (Ascii.eqb c) s <> "".
Proof.
  induction s as [|a s IH]; simpl.
  - split; [intros H; elim (occurs_nil c H)|congruence].
  - rewrite occurs_cons. destruct (Ascii.eqb_spec c a) as [->|Hne].
    + split; [discriminate|auto].
    + rewrite <- IH. split; [intros [H|H]; congruence|auto].
Qed.

Lemma occurs_unfenced (c : ascii) (s : string) :
  bracket c = true -> (occurs c (unfenced s) <-> occurs c s).
Proof.
  intros Hc. rewrite !occurs_sfilter, sfilter_unfenced_bracket; [tauto|].
  intros x Hx. apply Ascii.eqb_eq in Hx. subst x. exact Hc.
Qed.

Lemma is_object_cons_other (a : ascii) (s : string) :
  a <> "{"%char -> a <> "["%char -> (is_object (String a s) <-> is_object s).
Proof.
  intros Hbrace Hbracket. unfold is_object. rewrite !occurs_cons. split.
  - intros [[Heq|Hocc] Hrest]; [contradiction|]. split; [exact Hocc|].
    destruct Hrest as [Hno|[i [k [Hi [Hk Hlt]]]]].
    + left. tauto.
    + right.
      destruct (first_at_cons_inv _ _ _ _ Hi) as [[Heq _]|[_ [i' [-> Hi']]]];
        [contradiction|].
      destruct (first_at_cons_inv _ _ _ _ Hk) as [[Heq _]|[_ [k' [-> Hk']]]];
        [contradiction|].
      exists i', k'. repeat split; try apply Hi'; try apply Hk'. lia.
  - intros [Hocc Hrest]. split; [right; exact Hocc|].
    destruct Hrest as [Hno|[i [k [Hi [Hk Hlt]]]]].
    + left. tauto.
    + right. exists (S i), (S k).
      split; [apply first_at_later; assumption|].
      split; [apply first_at_later; assumption|lia].
Qed.

(** The payload is an object exactly when the first opening character of
    the string is a brace. *)
Lemma is_object_sfilter (s : string) :
  is_object s <-> exists r, sfilter is_open s = String "{" r.
Proof.
  induction s as [|a s IH].
  - split.
    + intros [H _]. elim (occurs_nil _ H).
    + intros [r H]. discriminate.
  - destruct (Ascii.eqb_spec a "{") as [->|Hbrace].
    + split; [intros _; simpl; eauto|]. intros _. split.
      * exists 0%nat. reflexivity.
      * destruct (occurs_dec "[" (String "{" s)) as [Hocc|Hno]; [|left; exact Hno].
        right. destruct (occurs_first _ _ Hocc) as [k Hk].
        exists 0%nat, k. split; [apply first_at_here|]. split; [exact Hk|].
        destruct k as [|k]; [|lia]. destruct Hk as [Hk _]. discriminate.
    + destruct (Ascii.eqb_spec a "[") as [->|Hbracket].
      * split.
        -- intros [_ [Hno|[i [k [_ [Hk Hlt]]]]]].
           ++ exfalso. apply Hno. exists 0%nat. reflexivity.
           ++ destruct (first_at_cons_inv _ _ _ _ Hk) as [[_ ->]|[Hne _]];
                [lia|congruence].
        -- intros [r H]. simpl in H. discriminate.
      * rewrite is_object_cons_other by assumption.
        replace (sfilter is_open (String a s)) with (sfilter is_open s); [exact IH|].
        simpl. unfold is_open.
        apply Ascii.eqb_neq in Hbrace, Hbracket.
        rewrite Hbrace, Hbracket. reflexivity.
Qed.

Lemma is_object_unfenced (s : string) :
  is_object (unfenced s) <-> is_object s.
Proof.
  rewrite !is_object_sfilter, sfilter_unfenced_bracket; [tauto|].
  intros c. unfold is_open, bracket. rewrite !orb_true_iff. tauto.
Qed.

Lemma pair_found_unfenced (s : string) :
  pair_found (unfenced s) <-> pair_found s.
Proof.
  unfold pair_found.
  rewrite is_object_unfenced, !occurs_unfenced by reflexivity. tauto.
Qed.

(** When a pair is found the result is the slice from the start to the
    end; otherwise it is the text without its fences. *)
Lemma clean_not_found (raw : string) :
  ~ pair_found raw -> clean_gemini_json raw = unfenced raw.
Proof.
  intros Hno. rewrite <- pair_found_unfenced in Hno.
  unfold clean_gemini_json. set (t := unfenced raw) in *.
  destruct (is_object_dec t) as [Hobj|Hnot].
  - destruct (payload_bounds_object t Hobj) as [i [_ ->]].
    rewrite rfind_one_absent; [|intros H; apply Hno; left; auto].
    rewrite andb_false_r. reflexivity.
  - destruct (occurs_dec "[" t) as [Hocc|Hnone].
    + destruct (payload_bounds_array t Hnot Hocc) as [k [_ ->]].
      rewrite rfind_one_absent; [|intros H; apply Hno; right; auto].
      rewrite andb_false_r. reflexivity.
    + rewrite payload_bounds_none; [reflexivity| |exact Hnone].
      intros H. destruct (is_object_dec t) as [Hobj|_]; [contradiction|].
      apply Hnot. split; [exact H|]. left. exact Hnone.
Qed.

(** ** Fence markers and stripping *)

Lemma find_cons (sub : string) (a : ascii) (s : string) :
  find sub (String a s)
  = if prefix sub (String a s) then 0
    else if find sub s =? -1 then -1 else find sub s + 1.
Proof. reflexivity. Qed.

Lemma find_ge (sub s : string) : -1 <= find sub s.
Proof.
  induction s as [|a s IH].
  - destruct sub; simpl; lia.
  - rewrite find_cons. destruct (prefix sub (String a s)); [lia|].
    destruct (Z.eqb_spec (find sub s) (-1)); lia.
Qed.

Lemma contains_cons (sub : string) (a : ascii) (s : string) :
  contains sub (String a s) = (prefix sub (String a s) || contains sub s)%bool.
Proof.
  unfold contains. rewrite find_cons.
  destruct (prefix sub (String a s)); [reflexivity|].
  pose proof (find_ge sub s).
  destruct (Z.eqb_spec (find sub s) (-1)) as [E|E]; [reflexivity|].
  destruct (Z.eqb_spec (find sub s + 1) (-1)); [lia|reflexivity].
Qed.

Lemma contains_lstrip (sub s : string) :
  contains sub (lstrip s) = true -> contains sub s = true.
Proof.
  induction s as [|a s IH]; [auto|].
  simpl lstrip. destruct (isspace a); [|auto].
  intros H. rewrite contains_cons, (IH H). apply orb_true_r.
Qed.

Lemma prefix_app (sub : string) : forall a b,
  prefix sub a = true -> prefix sub (a ++ b) = true.
Proof.
  induction sub as [|x sub IH]; intros a b H.
  - apply prefix_empty.
  - destruct a as [|y a]; simpl in *; [discriminate|].
    destruct (ascii_dec x y); [auto|discriminate].
Qed.

Lemma contains_app_l (sub a b : string) :
  contains sub a = true -> contains sub (a ++ b) = true.
Proof.
  induction a as [|c a IH].
  - destruct sub; [|discriminate]. intros _. unfold contains.
    destruct b; reflexivity.
  - simpl append. rewrite !contains_cons, !orb_true_iff.
    intros [H|H]; [left|right; auto].
    apply (prefix_app sub (String c a) b H).
Qed.

Lemma rstrip_prefix (s : string) : exists w, s = rstrip s ++ w.
Proof.
  induction s as [|c s [w IH]]; [exists ""; reflexivity|].
  simpl. destruct (rstrip s) as [|d r].
  - destruct (isspace c).
    + exists (String c s). reflexivity.
    + exists w. simpl in *. congruence.
  - exists w. simpl in *. congruence.
Qed.

Lemma contains_strip (sub s : string) :
  contains sub (strip s) = true -> contains sub s = true.
Proof.
  unfold strip. intros H. apply contains_lstrip.
  destruct (rstrip_prefix (lstrip s)) as [w Hw]. rewrite Hw.
  apply contains_app_l. exact H.
Qed.

(** Without a fence marker in the input, only the stripping is left of
    lines 49-53. *)
Lemma unfenced_no_fence (raw : string) :
  contains "```" raw = false -> unfenced raw = strip raw.
Proof.
  intros H. unfold unfenced.
  destruct (contains "```" (strip raw)) eqn:E; [|reflexivity].
  apply contains_strip in E. congruence.
Qed.

Lemma no_bracket_not_found (raw : string) :
  ~ occurs "{" raw -> ~ occurs "[" raw -> ~ pair_found raw.
Proof.
  intros Hbrace Hbracket [[[H _] _]|[_ [H _]]]; contradiction.
Qed.

(** ** The response extractor *)

(** The object branch and the array branch, end to end. *)
Lemma clean_object (raw : string) :
  is_object raw ->
  exists i, first_at "{" (unfenced raw) i
    /\ forall j, last_at "}" (unfenced raw) j ->
                 clean_gemini_json raw = between (unfenced raw) i j.
Proof.
  set (t := unfenced raw).
  intros Hobj. apply is_object_unfenced in Hobj. fold t in Hobj.
  destruct (payload_bounds_object t Hobj) as [i [Hi Hb]].
  exists i. split; [exact Hi|]. intros j Hj.
  unfold clean_gemini_json. fold t. rewrite Hb, (rfind_one_last _ _ _ Hj).
  destruct (Z.eqb_spec (Z.of_nat i) (-1)); [lia|].
  destruct (Z.eqb_spec (Z.of_nat j) (-1)); [lia|].
  simpl andb. cbv iota.
  destruct Hi as [Hi _], Hj as [Hj _]. eapply slice_between; eassumption.
Qed.

Lemma clean_array (raw : string) :
  ~ is_object raw -> occurs "[" raw ->
  exists k, first_at "[" (unfenced raw) k
    /\ forall j, last_at "]" (unfenced raw) j ->
                 clean_gemini_json raw = between (unfenced raw) k j.
Proof.
  set (t := unfenced raw).
  intros Hnot Hocc. rewrite <- is_object_unfenced in Hnot.
  apply (occurs_unfenced "[" raw eq_refl) in Hocc. fold t in Hnot, Hocc.
  destruct (payload_bounds_array t Hnot Hocc) as [k [Hk Hb]].
  exists k. split; [exact Hk|]. intros j Hj.
  unfold clean_gemini_json. fold t. rewrite Hb, (rfind_one_last _ _ _ Hj).
  destruct (Z.eqb_spec (Z.of_nat k) (-1)); [lia|].
  destruct (Z.eqb_spec (Z.of_nat j) (-1)); [lia|].
  simpl andb. cbv iota.
  destruct Hk as [Hk _], Hj as [Hj _]. eapply slice_between; eassumption.
Qed.

(** C2.  On every input the extractor works on the text [t] left by
    stripping and fence removal.  When the input has an opening brace and
    either no opening bracket or its first brace strictly before its first
    bracket, the payload is an object: it starts at the first brace of [t],
    and with the last closing brace of [t] at [j] the result is [t] from
    that start to [j], both included.  Otherwise, when the input has an
    opening bracket, the payload is an array: it starts at the first
    opening bracket of [t] and the result runs to the last closing bracket.
    The prose example gives the bare object and the fenced example the
    bare array. *)
Theorem clean_gemini_json_payload (raw : string) :
  let t := unfenced raw in
  (is_object raw ->
   exists i, first_at "{" t i
     /\ forall j, last_at "}" t j -> clean_gemini_json raw = between t i j)
  /\ (~ is_object raw -> occurs "[" raw ->
      exists k, first_at "[" t k
        /\ forall j, last_at "]" t j -> clean_gemini_json raw = between t k j)
  /\ clean_gemini_json ("prose {" ++ dq ++ "a" ++ dq ++ ":1} more prose")
     = "{" ++ dq ++ "a" ++ dq ++ ":1}"
  /\ clean_gemini_json ("```json" ++ nl ++ "[1,2,3]" ++ nl ++ "```")
     = "[1,2,3]".
Proof.
  intros t. split; [|split; [|split; vm_compute; reflexivity]].
  - apply clean_object.
  - apply clean_array.
Qed.

(** The prose example as an instance: the brace at position 6 opens the
    payload and the brace at position 12 closes it. *)
Lemma clean_gemini_json_payload_witness :
  let raw := "prose {" ++ dq ++ "a" ++ dq ++ ":1} more prose" in
  is_object raw /\ clean_gemini_json raw = between (unfenced raw) 6 12.
Proof.
  intros raw.
  assert (Hobj : is_object raw).
  { apply is_object_sfilter. simpl. eauto. }
  split; [exact Hobj|].
  destruct (clean_gemini_json_payload raw) as [H _].
  destruct (H Hobj) as [i [Hi Hres]].
  assert (H6 : first_at "{" (unfenced raw) 6).
  { split; [reflexivity|].
    intros k Hk. do 6 (destruct k as [|k]; [discriminate|]). lia. }
  assert (H12 : last_at "}" (unfenced raw) 12).
  { split; [reflexivity|].
    intros k Hk. do 13 (destruct k as [|k]; [lia|]).
    do 12 (destruct k as [|k]; [discriminate|]). discriminate. }
  assert (E : i = 6%nat) by (eapply first_at_unique; eassumption).
  subst i. apply Hres. exact H12.
Defined.

(** C4, as amended.  When no start and end pair is found, and so whenever
    the input has neither an opening brace nor an opening bracket, the
    result is the stripped input with its fence markers removed; it is the
    stripped input itself when the input has no fence marker. *)
Theorem clean_gemini_json_no_payload (raw : string) :
  ~ pair_found raw ->
  clean_gemini_json raw = unfenced raw
  /\ (contains "```" raw = false -> clean_gemini_json raw = strip raw).
Proof.
  intros Hno. pose proof (clean_not_found raw Hno) as H. split; [exact H|].
  intros Hfence. rewrite H. apply unfenced_no_fence. exact Hfence.
Qed.

(** An instance: a text without brackets and without fences comes back
    stripped. *)
Lemma clean_gemini_json_no_payload_witness :
  ~ pair_found " no payload here "
  /\ clean_gemini_json " no payload here " = "no payload here".
Proof.
  assert (Hno : ~ pair_found " no payload here ").
  { apply no_bracket_not_found; rewrite occurs_sfilter; simpl; congruence. }
  split; [exact Hno|].
  destruct (clean_gemini_json_no_payload " no payload here " Hno) as [_ H].
  apply H. reflexivity.
Defined.

(** C4 as stated fails: a fenced text without brackets comes back without
    its fence markers, not as the stripped input. *)
Lemma clean_gemini_json_no_payload_counterexample :
  ~ (forall raw, ~ pair_found raw -> clean_gemini_json raw = strip raw).
Proof.
  intros H. specialize (H "```abc```").
  assert (Hno : ~ pair_found "```abc```").
  { apply no_bracket_not_found; rewrite occurs_sfilter; simpl; congruence. }
  specialize (H Hno). vm_compute in H. discriminate H.
Qed.

(** C10.  When the payload is an object and the last closing brace of the
    text stands before its first opening brace, both positions are found
    and the result is the empty string; likewise for an array.  The input
    made of a closing brace, a space and an opening brace is such a case. *)
Theorem clean_gemini_json_inverted :
  (pair_found "} {" /\ first_at "{" (unfenced "} {") 2
   /\ last_at "}" (unfenced "} {") 0 /\ clean_gemini_json "} {" = ""
   /\ strip "} {" <> "")
  /\ (forall raw i j,
        is_object raw -> first_at "{" (unfenced raw) i ->
        last_at "}" (unfenced raw) j -> (j < i)%nat ->
        clean_gemini_json raw = "")
  /\ (forall raw k j,
        ~ is_object raw -> first_at "[" (unfenced raw) k ->
        last_at "]" (unfenced raw) j -> (j < k)%nat ->
        clean_gemini_json raw = "").
Proof.
  split; [|split].
  - split; [|split; [|split; [|split]]].
    + left. split.
      * apply is_object_sfilter. simpl. eauto.
      * exists 0%nat. reflexivity.
    + split; [reflexivity|]. intros [|[|k]] Hk; try lia; discriminate.
    + split; [reflexivity|]. intros [|[|[|k]]] Hk; try lia; discriminate.
    + vm_compute. reflexivity.
    + vm_compute. discriminate.
  - intros raw i j Hobj Hi Hj Hlt.
    destruct (clean_object raw Hobj) as [i' [Hi' Hres]].
    assert (i' = i) by (eapply first_at_unique; eassumption). subst i'.
    rewrite (Hres j Hj). apply between_inverted. exact Hlt.
  - intros raw k j Hnot Hk Hj Hlt.
    assert (Hocc : occurs "[" raw).
    { apply (occurs_unfenced "[" raw eq_refl). eapply first_at_occurs. exact Hk. }
    destruct (clean_array raw Hnot Hocc) as [k' [Hk' Hres]].
    assert (k' = k) by (eapply first_at_unique; eassumption). subst k'.
    rewrite (Hres j Hj). apply between_inverted. exact Hlt.
Qed.

(** An instance: the closing brace at 0 precedes the opening brace at 2. *)
Lemma clean_gemini_json_inverted_witness :
  is_object "} {" /\ clean_gemini_json "} {" = "".
Proof.
  destruct clean_gemini_json_inverted as [[Hpair [Hi [Hj _]]] [H _]].
  assert (Hobj : is_object "} {").
  { apply is_object_sfilter. simpl. eauto. }
  split; [exact Hobj|].
  apply (H "} {" 2%nat 0%nat Hobj Hi Hj). lia.
Defined.

(** ** The grading loop *)

Lemma is_empty_spec (s : string) : is_empty s = true <-> s = "".
Proof. destruct s; simpl; split; congruence. Qed.

Lemma step_result_graded (form : Form) (i : nat) (q : Question) :
  graded_as q (submitted form i) (step_result form i q).
Proof.
  unfold graded_as, step_result, matches.
  destruct (submitted form i) as [|c ans] eqn:E; simpl is_empty; cbv iota.
  - left. auto.
  - right. assert (Hne : String c ans <> "") by discriminate.
    destruct (String.eqb_spec (qtype q) "mcq") as [Hq|Hq].
    + destruct (String.eqb_spec (String c ans) (answer q)) as [Ha|Ha].
      * left. tauto.
      * right. split; [exact Hne|]. split; [|reflexivity]. tauto.
    + destruct (String.eqb_spec (lower (String c ans)) (lower (answer q)))
        as [Ha|Ha].
      * left. tauto.
      * right. split; [exact Hne|]. split; [|reflexivity]. tauto.
Qed.

Lemma step_result_cases (form : Form) (i : nat) (q : Question) :
  step_result form i q = "correct" \/ step_result form i q = "wrong"
  \/ step_result form i q = "blank".
Proof.
  unfold step_result. destruct (is_empty _); [auto|].
  destruct (if String.eqb (qtype q) "mcq" then _ else _); auto.
Qed.

Lemma count_result_app (res : string) (a b : list Detail) :
  count_result res (a ++ b) = count_result res a + count_result res b.
Proof.
  unfold count_result. rewrite filter_app, length_app. lia.
Qed.

(** One turn of the loop appends the entry of the question and counts its
    outcome. *)
Lemma grade_step_spec (form : Form) (t : Tally) (i : nat) (q : Question) :
  let t' := grade_step form t i q in
  let d := step_detail form i q in
  details t' = (details t ++ [d])%list
  /\ correct t' = correct t + count_result "correct" [d]
  /\ wrong t' = wrong t + count_result "wrong" [d]
  /\ blank t' = blank t + count_result "blank" [d].
Proof.
  unfold grade_step, step_detail, step_result, add_detail, count_result.
  destruct (is_empty (submitted form i)); simpl.
  - repeat split; lia.
  - destruct (if String.eqb (qtype q) "mcq" then _ else _); simpl;
      repeat split; lia.
Qed.

Lemma grade_loop_spec (form : Form) (questions : list Question) :
  forall t i,
    let t' := grade_loop form t i questions in
    let ds := new_details form i questions in
    details t' = (details t ++ ds)%list
    /\ correct t' = correct t + count_result "correct" ds
    /\ wrong t' = wrong t + count_result "wrong" ds
    /\ blank t' = blank t + count_result "blank" ds.
Proof.
  induction questions as [|q rest IH]; intros t i; simpl.
  - rewrite app_nil_r. unfold count_result. simpl. repeat split; lia.
  - destruct (IH (grade_step form t i q) (S i)) as [Hd [Hc [Hw Hb]]].
    destruct (grade_step_spec form t i q) as [Hd1 [Hc1 [Hw1 Hb1]]].
    rewrite Hd, Hc, Hw, Hb, Hd1, Hc1, Hw1, Hb1.
    change (step_detail form i q :: new_details form (S i) rest)
      with ([step_detail form i q] ++ new_details form (S i) rest)%list.
    rewrite !count_result_app, <- app_assoc. repeat split; lia.
Qed.

Lemma new_details_length (form : Form) (questions : list Question) :
  forall i, List.length (new_details form i questions) = List.length questions.
Proof. induction questions; intros i; simpl; auto. Qed.

Lemma new_details_nth (form : Form) (questions : list Question) :
  forall i k q,
    nth_error questions k = Some q ->
    nth_error (new_details form i questions) k
    = Some (step_detail form (i + k) q).
Proof.
  induction questions as [|q0 rest IH]; intros i k q H.
  - destruct k; discriminate.
  - destruct k as [|k]; simpl in *.
    + inversion H. subst. rewrite Nat.add_0_r. reflexivity.
    + rewrite (IH (S i) k q H). do 2 f_equal. lia.
Qed.

(** Every entry carries one of the three outcomes, so the three counts
    add up to the number of entries. *)
Lemma new_details_counts (form : Form) (questions : list Question) :
  forall i,
    let ds := new_details form i questions in
    count_result "correct" ds + count_result "wrong" ds
    + count_result "blank" ds = Z.of_nat (List.length questions).
Proof.
  induction questions as [|q rest IH]; intros i; [reflexivity|].
  simpl new_details.
  change (step_detail form i q :: new_details form (S i) rest)
    with ([step_detail form i q] ++ new_details form (S i) rest)%list.
  cbv zeta. rewrite !count_result_app.
  specialize (IH (S i)). cbv zeta in IH.
  assert (H1 : count_result "correct" [step_detail form i q]
               + count_result "wrong" [step_detail form i q]
               + count_result "blank" [step_detail form i q] = 1).
  { unfold count_result, step_detail. simpl.
    destruct (step_result_cases form i q) as [-> | [-> | ->]]; reflexivity. }
  simpl List.length. lia.
Qed.

Lemma count_result_nonneg (res : string) (ds : list Detail) :
  0 <= count_result res ds.
Proof. unfold count_result. lia. Qed.

(** A non-empty pending quiz is graded and the session cleared. *)
Lemma submit_quiz_graded (questions : list Question) (form : Form) :
  questions <> [] ->
  submit_quiz (Some questions) form
  = (RenderResult
       {| total := Z.of_nat (List.length questions);
          r_correct := count_result "correct" (new_details form 0 questions);
          r_wrong := count_result "wrong" (new_details form 0 questions);
          r_blank := count_result "blank" (new_details form 0 questions);
          r_score := format_2f (score (grade_loop form tally0 0 questions));
          r_details := new_details form 0 questions |},
     None).
Proof.
  intros Hne. destruct questions as [|q rest]; [congruence|].
  unfold submit_quiz.
  destruct (grade_loop_spec form (q :: rest) tally0 0) as [Hd [Hc [Hw Hb]]].
  rewrite Hd, Hc, Hw, Hb. reflexivity.
Qed.

Lemma form_get_missing (form : Form) (key default : string) :
  ~ In key (map fst form) -> form_get form key default = default.
Proof.
  induction form as [|[k v] rest IH]; simpl; intros H; [reflexivity|].
  destruct (String.eqb_spec k key) as [->|_]; [tauto|]. apply IH. tauto.
Qed.

Lemma new_details_text (form : Form) (questions : list Question) :
  forall i, map d_text (new_details form i questions) = map text questions.
Proof. induction questions; intros i; simpl; [|rewrite IHquestions]; auto. Qed.

Lemma new_details_answer (form : Form) (questions : list Question) :
  forall i,
    map correct_answer (new_details form i questions) = map answer questions.
Proof. induction questions; intros i; simpl; [|rewrite IHquestions]; auto. Qed.

Lemma new_details_user_answer (form : Form) (questions : list Question) :
  forall i,
    map user_answer (new_details form i questions)
    = map (submitted form) (seq i (List.length questions)).
Proof. induction questions; intros i; simpl; [|rewrite IHquestions]; auto. Qed.

Lemma new_details_results (form : Form) (questions : list Question) :
  forall i,
    Forall (fun d => result d = "correct" \/ result d = "wrong"
                     \/ result d = "blank")
           (new_details form i questions).
Proof.
  induction questions as [|q rest IH]; intros i; simpl; constructor.
  - apply step_result_cases.
  - apply IH.
Qed.

(** ** The grader *)

(** C1.  For the question [q] at index [i] of the pending quiz, the entry
    of [details] at [i] holds the stripped value of the form field for [i]
    (the empty string when the field is missing) and its outcome: blank for
    an empty answer; otherwise correct exactly when the answer equals the
    canonical one (for the type [mcq]) or equals it once both are
    lower-cased (for any other type), and wrong when it does not.  A
    multiple-choice question answered " a " against "A" is wrong; an open
    question answered " paris " against "Paris" is correct. *)
Theorem grading_outcome :
  (forall questions form i q,
     nth_error questions i = Some q ->
     let ans := strip (form_get form ("q" ++ str_of_nat i) "") in
     exists r d,
       submit_quiz (Some questions) form = (RenderResult r, None)
       /\ nth_error (r_details r) i = Some d
       /\ user_answer d = ans
       /\ graded_as q ans (result d)
       /\ (~ In ("q" ++ str_of_nat i) (map fst form) -> result d = "blank"))
  /\ (exists r,
        submit_quiz (Some [mcq_question "A"]) [("q0", " a ")]
        = (RenderResult r, None)
        /\ map user_answer (r_details r) = ["a"]
        /\ map result (r_details r) = ["wrong"])
  /\ (exists r,
        submit_quiz (Some [open_question "Paris"]) [("q0", " paris ")]
        = (RenderResult r, None)
        /\ map user_answer (r_details r) = ["paris"]
        /\ map result (r_details r) = ["correct"]).
Proof.
  split; [|split].
  - intros questions form i q Hq ans.
    assert (Hne : questions <> []) by (intros ->; destruct i; discriminate).
    rewrite (submit_quiz_graded questions form Hne).
    eexists. exists (step_detail form i q). split; [reflexivity|].
    split; [apply (new_details_nth form questions 0 i q Hq)|].
    split; [reflexivity|]. split; [apply step_result_graded|].
    intros Hmissing. simpl. unfold step_result, submitted.
    rewrite (form_get_missing _ _ _ Hmissing). reflexivity.
  - eexists. split; [vm_compute; reflexivity|]. split; reflexivity.
  - eexists. split; [vm_compute; reflexivity|]. split; reflexivity.
Qed.

(** An instance: the second of two questions, answered with trailing
    spaces. *)
Lemma grading_outcome_witness :
  exists r d,
    submit_quiz (Some [open_question "Paris"; mcq_question "A"])
                [("q1", "A  ")]
    = (RenderResult r, None)
    /\ nth_error (r_details r) 1 = Some d
    /\ user_answer d = "A"
    /\ graded_as (mcq_question "A") "A" (result d).
Proof.
  destruct grading_outcome as [H _].
  destruct (H [open_question "Paris"; mcq_question "A"] [("q1", "A  ")]
              1%nat (mcq_question "A") eq_refl)
    as [r [d [Hr [Hd [Hu [Hg _]]]]]].
  exists r, d. repeat split; assumption.
Defined.

(** Every entry carries the text and the canonical answer of its question
    and the outcome the rules give its stripped answer. *)
Lemma new_details_graded (form : Form) (questions : list Question) :
  forall i,
    Forall2 (fun q d => d_text d = text q
                        /\ correct_answer d = answer q
                        /\ graded_as q (user_answer d) (result d))
            questions (new_details form i questions).
Proof.
  induction questions as [|q rest IH]; intros i; simpl; constructor.
  - split; [reflexivity|]. split; [reflexivity|].
    apply step_result_graded.
  - apply IH.
Qed.

(** C8.  Grading a pending quiz renders a result whose total is the number
    of questions and whose three counts add up to it; each count is the
    number of entries of [details] with that outcome; and [details] has, in
    the order of the questions, one entry per question with its text, the
    stripped submitted answer, its canonical answer and its outcome: blank
    for an empty answer, correct for an answer that matches the question,
    wrong for one that does not. *)
Theorem grading_result (questions : list Question) (form : Form) :
  questions <> [] ->
  exists r,
    submit_quiz (Some questions) form = (RenderResult r, None)
    /\ total r = Z.of_nat (List.length questions)
    /\ r_correct r + r_wrong r + r_blank r = total r
    /\ r_correct r = count_result "correct" (r_details r)
    /\ r_wrong r = count_result "wrong" (r_details r)
    /\ r_blank r = count_result "blank" (r_details r)
    /\ map d_text (r_details r) = map text questions
    /\ map user_answer (r_details r)
       = map (fun i => strip (form_get form ("q" ++ str_of_nat i) ""))
             (seq 0 (List.length questions))
    /\ map correct_answer (r_details r) = map answer questions
    /\ Forall (fun d => result d = "correct" \/ result d = "wrong"
                        \/ result d = "blank") (r_details r)
    /\ Forall2 (fun q d => d_text d = text q
                           /\ correct_answer d = answer q
                           /\ graded_as q (user_answer d) (result d))
               questions (r_details r).
Proof.
  intros Hne. rewrite (submit_quiz_graded questions form Hne).
  eexists. split; [reflexivity|]. simpl.
  split; [reflexivity|].
  split; [apply (new_details_counts form questions 0)|].
  repeat (split; [reflexivity|]).
  split; [apply new_details_text|].
  split; [apply new_details_user_answer|].
  split; [apply new_details_answer|].
  split; [apply new_details_results|apply new_details_graded].
Qed.

(** An instance: two questions, the first answered wrongly and the second
    correctly up to case. *)
Lemma grading_result_witness :
  exists r,
    submit_quiz (Some [mcq_question "A"; open_question "Paris"])
                [("q0", "B"); ("q1", "PARIS")]
    = (RenderResult r, None)
    /\ total r = 2
    /\ r_correct r + r_wrong r + r_blank r = total r
    /\ map user_answer (r_details r) = ["B"; "PARIS"]
    /\ map result (r_details r) = ["wrong"; "correct"].
Proof.
  assert (Hne : [mcq_question "A"; open_question "Paris"] <> [])
    by discriminate.
  destruct (grading_result [mcq_question "A"; open_question "Paris"]
              [("q0", "B"); ("q1", "PARIS")] Hne)
    as [r [Hr [Ht [Hsum [_ [_ [_ [_ [Hu [_ [_ Hg]]]]]]]]]]].
  exists r. split; [exact Hr|]. split; [exact Ht|]. split; [exact Hsum|].
  split; [exact Hu|].
  destruct (r_details r) as [|d0 [|d1 [|d2 ds]]];
    try (inversion Hg; fail);
    try (inversion Hg as [|? ? ? ? ? Hg1]; inversion Hg1; fail);
    try (inversion Hg as [|? ? ? ? ? Hg1];
         inversion Hg1 as [|? ? ? ? ? Hg2]; inversion Hg2; fail).
  simpl in Hu. inversion Hu as [[Hu0 Hu1]].
  inversion Hg as [|? ? ? ? [_ [_ G0]] Hg1]. subst.
  inversion Hg1 as [|? ? ? ? [_ [_ G1]] _]. subst.
  rewrite Hu0 in G0. rewrite Hu1 in G1. simpl. f_equal; [|f_equal].
  - destruct G0 as [[E _]|[[_ [M _]]|[_ [_ E]]]];
      [discriminate E| |exact E].
    destruct M as [[_ E]|[E _]]; [discriminate E|elim E; reflexivity].
  - destruct G1 as [[E _]|[[_ [_ E]]|[_ [M _]]]];
      [discriminate E|exact E|].
    elim M. right. split; [discriminate|reflexivity].
Defined.

(** Without a pending quiz nothing is graded. *)
Lemma submit_quiz_no_quiz (form : Form) :
  submit_quiz None form = (NoActiveQuiz "Nessun quiz attivo.", None)
  /\ submit_quiz (Some []) form = (NoActiveQuiz "Nessun quiz attivo.", Some []).
Proof. split; reflexivity. Qed.

(** ** The score *)

(** The literal [0.1] is the double nearest to one tenth: ten times its
    significand is within half a unit of [2 ^ 56]. *)
Lemma f_0_1_nearest :
  f_0_1 = SFdiv prec emax f_1_0 (binary_normalize prec emax 10 0 false)
  /\ Z.abs (10 * 7205759403792794 - 2 ^ 56) <= 5.
Proof. split; [vm_compute; reflexivity|vm_compute; discriminate]. Qed.

(** A submission whose answers are all empty leaves the score at zero. *)
Lemma grade_loop_all_blank (form : Form) (questions : list Question) :
  forall t i,
    (forall k, (i <= k < i + List.length questions)%nat ->
               submitted form k = "") ->
    grade_loop form t i questions
    = {| score := score t; correct := correct t; wrong := wrong t;
         blank := blank t + Z.of_nat (List.length questions);
         details := (details t ++ new_details form i questions)%list |}.
Proof.
  induction questions as [|q rest IH]; intros t i Hblank.
  - simpl. rewrite Z.add_0_r, app_nil_r. destruct t; reflexivity.
  - simpl grade_loop. rewrite IH by (intros k Hk; apply Hblank; simpl; lia).
    unfold grade_step, add_detail, step_detail, step_result.
    simpl new_details. unfold step_detail, step_result.
    rewrite (Hblank i) by (simpl; lia). simpl.
    rewrite <- app_assoc. f_equal. lia.
Qed.

(** The examples of C3 hold: an all-blank submission over any number of
    questions scores "0.00" with every question blank, and the outcomes
    correct, wrong, blank score "0.90". *)
Lemma score_examples :
  (forall questions form,
     questions <> [] ->
     (forall k, (k < List.length questions)%nat -> submitted form k = "") ->
     exists r,
       submit_quiz (Some questions) form = (RenderResult r, None)
       /\ r_score r = "0.00" /\ r_blank r = total r
       /\ r_correct r = 0 /\ r_wrong r = 0)
  /\ (exists r,
        submit_quiz (Some [mcq_question "A"; mcq_question "A"; mcq_question "A"])
                    (form_of 0 ["A"; "B"; ""])
        = (RenderResult r, None)
        /\ map result (r_details r) = ["correct"; "wrong"; "blank"]
        /\ r_correct r = 1 /\ r_wrong r = 1 /\ r_blank r = 1 /\ total r = 3
        /\ r_score r = "0.90" /\ decimal_score 1 1 = "0.90")
  /\ (exists r,
        submit_quiz (Some [mcq_question "A"; mcq_question "A"; mcq_question "A"])
                    (form_of 0 ["B"; "B"; "B"])
        = (RenderResult r, None)
        /\ r_score r = "-0.30" /\ decimal_score 0 3 = "-0.30").
Proof.
  split; [|split].
  - intros questions form Hne Hblank.
    destruct questions as [|q rest]; [congruence|].
    unfold submit_quiz.
    rewrite (grade_loop_all_blank form (q :: rest) tally0 0)
      by (intros k Hk; apply Hblank; lia).
    eexists. split; [reflexivity|]. simpl. repeat split; lia.
  - eexists. split; [vm_compute; reflexivity|]. repeat split.
  - eexists. split; [vm_compute; reflexivity|]. repeat split.
Qed.

(** C3 at a failing input.  Twenty-two questions, the first two answered
    correctly and the other twenty wrongly: the points add up to zero, the
    decimal score is "0.00", and the running binary64 sum ends just below
    zero, so that the score rendered is "-0.00". *)
Theorem score_negative_zero :
  let questions := repeat (mcq_question "A") 22 in
  let form := form_of 0 (["A"; "A"] ++ repeat "B" 20)%list in
  exists r,
    submit_quiz (Some questions) form = (RenderResult r, None)
    /\ total r = 22 /\ r_correct r = 2 /\ r_wrong r = 20 /\ r_blank r = 0
    /\ decimal_score (r_correct r) (r_wrong r) = "0.00"
    /\ score (grade_loop form tally0 0 questions)
       = S754_finite true 6473924464345088 (-103)
    /\ r_score r = "-0.00".
Proof.
  eexists. split; [vm_compute; reflexivity|]. repeat split.
Qed.

(** ** The quiz generator *)

Lemma ceil_half_table :
  forallb (fun n => match ceil_half n with
                    | inr m => m =? (n + 1) / 2
                    | inl _ => false
                    end)
          (map Z.of_nat (seq 1 50)) = true.
Proof. vm_compute. reflexivity. Qed.

Lemma ceil_half_small (count : Z) :
  1 <= count <= 50 -> ceil_half count = inr ((count + 1) / 2).
Proof.
  intros H. pose proof ceil_half_table as T.
  rewrite forallb_forall in T. specialize (T count).
  assert (Hin : In count (map Z.of_nat (seq 1 50))).
  { apply in_map_iff. exists (Z.to_nat count). split; [lia|].
    apply in_seq. lia. }
  specialize (T Hin). destruct (ceil_half count) as [e|m]; [discriminate|].
  apply Z.eqb_eq in T. congruence.
Qed.

(** Past the validation, the generator posts exactly one prompt, the one
    built from the count and the two targets. *)
Lemma generate_quiz_logic_sent (service : string -> Reply)
  (json_loads : string -> option json) (program_text : string)
  (count m : Z) (w : World) :
  0 < count -> ceil_half count = inr m ->
  sent (snd (generate_quiz_logic service json_loads program_text count w))
  = (sent w ++ [quiz_prompt program_text count m (count - m)])%list.
Proof.
  intros Hpos Hm. unfold generate_quiz_logic.
  destruct (Z.leb_spec count 0); [lia|].
  rewrite Hm. unfold bind, lift, ret, requests_post.
  destruct (service _) as [|status body]; [reflexivity|].
  destruct ((400 <=? status) && (status <? 600))%bool; [reflexivity|].
  destruct (quiz_try json_loads body) as [[[t|] e]|q]; reflexivity.
Qed.

(** C5.  For a count from 1 to 50 the target for multiple-choice questions
    is the ceiling of half the count, the least integer whose double
    reaches the count; the target for open questions is the count less
    that; the two add up to the count; and they are the targets written
    into the prompt posted. *)
Theorem question_mix (count : Z) :
  1 <= count <= 50 ->
  exists desired_mcq desired_open,
    ceil_half count = inr desired_mcq
    /\ desired_open = count - desired_mcq
    /\ desired_mcq + desired_open = count
    /\ count <= 2 * desired_mcq /\ 2 * (desired_mcq - 1) < count
    /\ forall service json_loads program_text w,
         sent (snd (generate_quiz_logic service json_loads program_text
                                        count w))
         = (sent w ++ [quiz_prompt program_text count desired_mcq
                                   desired_open])%list.
Proof.
  intros H. exists ((count + 1) / 2), (count - (count + 1) / 2).
  pose proof (ceil_half_small count H) as Hc.
  split; [exact Hc|]. split; [reflexivity|]. split; [lia|].
  pose proof (Z.div_mod (count + 1) 2 ltac:(lia)) as Hdm.
  pose proof (Z.mod_pos_bound (count + 1) 2 ltac:(lia)) as Hmod.
  split; [lia|]. split; [lia|].
  intros service json_loads program_text w.
  apply generate_quiz_logic_sent; [lia|exact Hc].
Qed.

(** An instance: seven questions. *)
Lemma question_mix_witness :
  exists desired_mcq desired_open,
    ceil_half 7 = inr desired_mcq
    /\ desired_open = 7 - desired_mcq
    /\ desired_mcq + desired_open = 7.
Proof.
  assert (H : 1 <= 7 <= 50) by lia.
  destruct (question_mix 7 H) as [m [o [Hm [Ho [Hsum _]]]]].
  exists m, o. repeat split; assumption.
Defined.

Lemma ceil_half_error (count : Z) (e : exn) :
  ceil_half count = inl e -> e = OverflowError.
Proof.
  unfold ceil_half. destruct (float_of_int count) as [x|]; [|congruence].
  destruct (ceil _); congruence.
Qed.

(** C7.  A count of zero or less makes the generator fail with the
    [ValueError] of line 80 and leaves everything as it was, no prompt
    posted; a positive count never ends in a [ValueError]. *)
Theorem generate_quiz_validation (service : string -> Reply)
  (json_loads : string -> option json) (program_text : string)
  (count : Z) (w : World) :
  (count <= 0 ->
   generate_quiz_logic service json_loads program_text count w
   = (inl (ValueError "Il numero di domande deve essere > 0"), w))
  /\ (0 < count ->
      forall msg,
        fst (generate_quiz_logic service json_loads program_text count w)
        <> inl (ValueError msg)).
Proof.
  unfold generate_quiz_logic. split; intros H.
  - destruct (Z.leb_spec count 0); [reflexivity|lia].
  - intros msg. destruct (Z.leb_spec count 0); [lia|].
    destruct (ceil_half count) as [e|m] eqn:E.
    + apply ceil_half_error in E. subst e. simpl. discriminate.
    + unfold bind, lift, ret, requests_post.
      destruct (service _) as [|status body]; [discriminate|].
      destruct ((400 <=? status) && (status <? 600))%bool; [discriminate|].
      destruct (quiz_try json_loads body) as [[[t|] e]|q]; discriminate.
Qed.

(** Instances: the counts -5 and 0 are refused, the count 3 is not. *)
Lemma generate_quiz_validation_witness :
  generate_quiz_logic sample_service (sample_loads "[]" (JArr []))
                      "text" (-5) world0
  = (inl (ValueError "Il numero di domande deve essere > 0"), world0)
  /\ generate_quiz_logic sample_service (sample_loads "[]" (JArr []))
                         "text" 0 world0
     = (inl (ValueError "Il numero di domande deve essere > 0"), world0)
  /\ fst (generate_quiz_logic sample_service (sample_loads "[]" (JArr []))
                              "text" 3 world0)
     <> inl (ValueError "Il numero di domande deve essere > 0").
Proof.
  split; [|split].
  - apply (generate_quiz_validation sample_service
             (sample_loads "[]" (JArr [])) "text" (-5) world0). lia.
  - apply (generate_quiz_validation sample_service
             (sample_loads "[]" (JArr [])) "text" 0 world0). lia.
  - apply (generate_quiz_validation sample_service
             (sample_loads "[]" (JArr [])) "text" 3 world0). lia.
Defined.

Lemma generate_quiz_logic_parsed (service : string -> Reply)
  (json_loads : string -> option json) (program_text : string)
  (count : Z) (w : World) (parsed : json) :
  0 < count ->
  completion_parses service json_loads program_text count parsed ->
  fst (generate_quiz_logic service json_loads program_text count w)
  = match select_questions parsed with
    | inr questions => inr questions
    | inl e => inl (RuntimeErrorFrom "Errore parsing Gemini: " e)
    end.
Proof.
  intros Hpos [m [status [body [raw [Hm [Hs [Hok [Hc Hl]]]]]]]].
  unfold generate_quiz_logic. destruct (Z.leb_spec count 0); [lia|].
  rewrite Hm. unfold bind, lift, ret, requests_post. rewrite Hs, Hok.
  unfold quiz_try. rewrite Hc. unfold clean_value, and_then, loads.
  rewrite Hl. destruct (select_questions parsed); reflexivity.
Qed.

Lemma sample_parses (payload : string) (parsed : json) :
  payload <> "R" -> clean_gemini_json payload = payload ->
  completion_parses sample_service (sample_loads payload parsed) "text" 3
                    parsed.
Proof.
  intros Hne Hclean. exists 2, 200, "R", payload.
  split; [vm_compute; reflexivity|]. split; [reflexivity|].
  split; [reflexivity|]. split; [reflexivity|].
  rewrite Hclean. unfold sample_loads.
  destruct (String.eqb_spec payload "R"); [contradiction|].
  rewrite String.eqb_refl. reflexivity.
Qed.

(** C6, as amended.  When the extracted completion parses, a bare array is
    returned as the question list and an object with the key [questions]
    gives the value of that key; an object without the key fails with the
    unexpected-format error wrapped in the generator's [RuntimeError]; and
    every other top-level value fails with the generator's [RuntimeError]
    around some cause. *)
Theorem generate_quiz_shapes (service : string -> Reply)
  (json_loads : string -> option json) (program_text : string)
  (count : Z) (w : World) (parsed : json) :
  0 < count ->
  completion_parses service json_loads program_text count parsed ->
  let out :=
    fst (generate_quiz_logic service json_loads program_text count w) in
  (forall items, parsed = JArr items -> out = inr (JArr items))
  /\ (forall members v,
        parsed = JObj members -> assoc "questions" members = Some v ->
        out = inr v)
  /\ (forall members,
        parsed = JObj members -> assoc "questions" members = None ->
        out = inl (RuntimeErrorFrom "Errore parsing Gemini: "
                                    unexpected_format))
  /\ ((forall items, parsed <> JArr items) ->
      (forall members v,
         parsed = JObj members -> assoc "questions" members <> Some v) ->
      exists e, out = inl (RuntimeErrorFrom "Errore parsing Gemini: " e)).
Proof.
  intros Hpos Hparse out. unfold out.
  rewrite (generate_quiz_logic_parsed _ _ _ _ w parsed Hpos Hparse).
  split; [|split; [|split]].
  - intros items ->. reflexivity.
  - intros members v -> Hv. unfold select_questions, py_in, getitem_key.
    rewrite Hv. reflexivity.
  - intros members -> Hv. unfold select_questions, py_in.
    rewrite Hv. reflexivity.
  - intros Harr Hobj. destruct parsed as [| b | n | x | s | items | members];
      unfold select_questions, py_in, getitem_key; eauto.
    + destruct (contains "questions" s); eauto.
    + elim (Harr items). reflexivity.
    + destruct (assoc "questions" members) as [v|] eqn:E; eauto.
      elim (Hobj members v eq_refl E).
Qed.

(** An instance: the completion is an empty bare array. *)
Lemma generate_quiz_shapes_witness :
  fst (generate_quiz_logic sample_service (sample_loads "[]" (JArr []))
                           "text" 3 world0)
  = inr (JArr []).
Proof.
  assert (Hpos : 0 < 3) by lia.
  assert (Hp : completion_parses sample_service
                 (sample_loads "[]" (JArr [])) "text" 3 (JArr [])).
  { apply sample_parses; [discriminate|vm_compute; reflexivity]. }
  destruct (generate_quiz_shapes sample_service
              (sample_loads "[]" (JArr [])) "text" 3 world0 (JArr [])
              Hpos Hp) as [H _].
  apply H. reflexivity.
Defined.

(** C6 as stated fails: a completion whose payload is the number 5 parses,
    is neither an array nor an object with the key, and fails with a
    [TypeError] as the wrapped cause, not with the unexpected-format
    error. *)
Lemma generate_quiz_shapes_counterexample :
  completion_parses sample_service (sample_loads "5" (JInt 5)) "text" 3
                    (JInt 5)
  /\ fst (generate_quiz_logic sample_service (sample_loads "5" (JInt 5))
                              "text" 3 world0)
     = inl (RuntimeErrorFrom "Errore parsing Gemini: " TypeError)
  /\ ~ (forall service json_loads program_text count w parsed,
          0 < count ->
          completion_parses service json_loads program_text count parsed ->
          (forall items, parsed <> JArr items) ->
          (forall members v,
             parsed = JObj members -> assoc "questions" members <> Some v) ->
          fst (generate_quiz_logic service json_loads program_text count w)
          = inl (RuntimeErrorFrom "Errore parsing Gemini: "
                                  unexpected_format)).
Proof.
  assert (Hp : completion_parses sample_service
                 (sample_loads "5" (JInt 5)) "text" 3 (JInt 5)).
  { apply sample_parses; [discriminate|vm_compute; reflexivity]. }
  split; [exact Hp|]. split; [vm_compute; reflexivity|].
  intros H.
  specialize (H sample_service (sample_loads "5" (JInt 5)) "text" 3 world0
                (JInt 5) ltac:(lia) Hp).
  assert (H' : fst (generate_quiz_logic sample_service
                      (sample_loads "5" (JInt 5)) "text" 3 world0)
               = inl (RuntimeErrorFrom "Errore parsing Gemini: "
                                       unexpected_format)).
  { apply H; [intros items; discriminate|intros members v; discriminate]. }
  vm_compute in H'. discriminate H'.
Qed.

(** ** The flashcard branch *)

Lemma substring_take (s : string) : forall n, substring 0 n s = take n s.
Proof.
  induction s as [|c s IH]; intros [|n]; simpl; try reflexivity.
  rewrite IH. reflexivity.
Qed.

Lemma replace_newline (s : string) :
  replace nl " " s = map_chars newline_to_space s.
Proof.
  unfold replace, nl. induction s as [|c s IH]; [reflexivity|].
  change (replace_from (String (ascii_of_nat 10) "") " " 0 (String c s))
    with (if prefix (String (ascii_of_nat 10) "") (String c s)
          then " " ++ replace_from (String (ascii_of_nat 10) "") " " 0 s
          else String c (replace_from (String (ascii_of_nat 10) "") " " 0 s)).
  rewrite prefix_one, IH. simpl map_chars. unfold newline_to_space.
  rewrite (Ascii.eqb_sym c). destruct (Ascii.eqb (ascii_of_nat 10) c);
    reflexivity.
Qed.

Lemma deck_title_label (program_text : string) :
  deck_title program_text = topic_label program_text.
Proof.
  unfold deck_title, topic_label.
  change 50 with (Z.of_nat 50).
  rewrite slice_prefix, substring_take, replace_newline. reflexivity.
Qed.

Lemma generate_flashcards_logic_decks (service : string -> Reply)
  (json_loads : string -> option json) (program_text : string)
  (count : Z) (w : World) :
  decks (snd (generate_flashcards_logic service json_loads program_text
                                        count w)) = decks w.
Proof.
  unfold generate_flashcards_logic, bind, requests_post.
  destruct (service _) as [|status body]; [reflexivity|].
  destruct ((400 <=? status) && (status <? 600))%bool; [reflexivity|].
  destruct (and_then _ _); reflexivity.
Qed.

(** C9.  The title computed at line 202 is the first 50 characters of the
    text with every newline turned into a space, followed by three dots;
    when the cards are generated, the flashcard branch adds one deck to
    the store and that deck has this title as its topic; when generation
    fails, no deck is added. *)
Theorem deck_topic (service : string -> Reply)
  (json_loads : string -> option json) (bind_other : json -> option string)
  (commit_error : list Flashcard -> exn) (program_text : string)
  (count : Z) (w : World) :
  deck_title program_text = topic_label program_text
  /\ (forall cards w1,
        generate_flashcards_logic service json_loads program_text count w
        = (inr cards, w1) ->
        map topic (decks (snd (flashcards_path service json_loads bind_other
                                               commit_error program_text
                                               count w)))
        = (map topic (decks w) ++ [topic_label program_text])%list)
  /\ (forall e w1,
        generate_flashcards_logic service json_loads program_text count w
        = (inl e, w1) ->
        decks (snd (flashcards_path service json_loads bind_other
                                    commit_error program_text count w))
        = decks w).
Proof.
  split; [apply deck_title_label|].
  pose proof (generate_flashcards_logic_decks service json_loads
                program_text count w) as Hd.
  split.
  - intros cards w1 Hgen. rewrite Hgen in Hd. simpl in Hd.
    unfold flashcards_path, try_except, bind. rewrite Hgen.
    unfold create_deck, lift. rewrite deck_title_label.
    destruct (py_iter cards) as [e|items]; simpl.
    + rewrite map_app, Hd. reflexivity.
    + destruct (make_cards items) as [e|cs]; simpl.
      * rewrite map_app, Hd. reflexivity.
      * unfold commit_cards.
        destruct (store_cards bind_other commit_error cs) as [e|rows]; simpl.
        -- rewrite map_app, Hd. reflexivity.
        -- rewrite map_map, map_app, Hd. simpl.
           f_equal.
           ++ apply map_ext. intros d. destruct (deck_id d =? _); reflexivity.
           ++ destruct (_ =? _); reflexivity.
  - intros e w1 Hgen. rewrite Hgen in Hd. simpl in Hd.
    unfold flashcards_path, try_except, bind. rewrite Hgen. simpl. exact Hd.
Qed.

(** An instance: a text of two lines gives a topic on one line. *)
Lemma deck_topic_witness :
  let text := "first line" ++ nl ++ "second line" in
  map topic (decks (snd (flashcards_path sample_service
                                         (sample_loads "[]" (JArr []))
                                         strings_only sample_commit_error
                                         text 3 world0)))
  = ["first line second line..."].
Proof.
  intros text.
  destruct (deck_topic sample_service (sample_loads "[]" (JArr []))
                       strings_only sample_commit_error
                       text 3 world0) as [_ [H _]].
  rewrite (H (JArr []) (snd (generate_flashcards_logic sample_service
                               (sample_loads "[]" (JArr [])) text 3 world0))).
  - reflexivity.
  - vm_compute. reflexivity.
Defined.

(** * Further properties *)

(** ** The extractor on clean and on noisy texts *)

Lemma length_app (a b : string) :
  String.length (a ++ b) = (String.length a + String.length b)%nat.
Proof. induction a as [|c a IH]; simpl; [reflexivity|]. rewrite IH. reflexivity. Qed.

Lemma get_past_end (s : string) :
  forall k, (String.length s <= k)%nat -> get k s = None.
Proof.
  induction s as [|c s IH]; intros k Hk; [reflexivity|].
  destruct k as [|k]; simpl in *; [lia|]. apply IH. lia.
Qed.

Lemma get_last (s : string) (c : ascii) :
  get (String.length s) (s ++ String c "") = Some c.
Proof. induction s as [|a s IH]; simpl; [reflexivity|exact IH]. Qed.

Lemma rstrip_keeps_end (s : string) (c : ascii) :
  isspace c = false -> rstrip (s ++ String c "") = s ++ String c "".
Proof.
  intros Hc. induction s as [|a s IH]; simpl.
  - rewrite Hc. reflexivity.
  - rewrite IH. destruct s; reflexivity.
Qed.

Lemma substring_snoc (s : string) :
  forall n b, get n s = Some b ->
              substring 0 (S n) s = substring 0 n s ++ String b "".
Proof.
  induction s as [|c s IH]; intros n b H; [destruct n; discriminate|].
  destruct n as [|n]; simpl in *.
  - inversion H. destruct s; reflexivity.
  - rewrite (IH n b H). reflexivity.
Qed.

Lemma substring_delimited (s : string) :
  forall i n a b,
    get i s = Some a -> get (i + S n) s = Some b ->
    substring i (S (S n)) s = String a (substring (S i) n s ++ String b "").
Proof.
  induction s as [|c s IH]; intros i n a b Ha Hb; [destruct i; discriminate|].
  destruct i as [|i]; simpl in Ha, Hb.
  - inversion Ha. subst c. simpl. f_equal. apply substring_snoc. exact Hb.
  - exact (IH i n a b Ha Hb).
Qed.

Lemma contains_empty (s : string) : contains "" s = true.
Proof. unfold contains. destruct s; reflexivity. Qed.

Lemma substring_is_prefix (s : string) :
  forall m, exists r, s = substring 0 m s ++ r.
Proof.
  induction s as [|c s IH]; intros m.
  - exists "". destruct m; reflexivity.
  - destruct m as [|m]; simpl.
    + exists (String c s). reflexivity.
    + destruct (IH m) as [r Hr]. exists r. simpl. congruence.
Qed.

Lemma contains_substring (sub s : string) :
  forall n m, contains sub (substring n m s) = true -> contains sub s = true.
Proof.
  induction s as [|c s IH]; intros n m H.
  - destruct n, m; exact H.
  - destruct n as [|n].
    + destruct (substring_is_prefix (String c s) m) as [r Hr].
      rewrite Hr. apply contains_app_l. exact H.
    + rewrite contains_cons. rewrite (IH n m H). apply orb_true_r.
Qed.

Lemma prefix_cons (a b : ascii) (p s : string) :
  prefix (String a p) (String b s) = (Ascii.eqb a b && prefix p s)%bool.
Proof.
  change (prefix (String a p) (String b s))
    with (match ascii_dec a b with
          | left _ => prefix p s
          | right _ => false
          end).
  destruct (ascii_dec a b) as [->|H].
  - rewrite Ascii.eqb_refl. reflexivity.
  - apply Ascii.eqb_neq in H. rewrite H. reflexivity.
Qed.

Lemma replace_fence_cons (c : ascii) (s : string) :
  replace_from "```" "" 0 (String c s)
  = if (Ascii.eqb "`" c && prefix "``" s)%bool
    then replace_from "```" "" 2 s
    else String c (replace_from "```" "" 0 s).
Proof.
  change (replace_from "```" "" 0 (String c s))
    with (if prefix "```" (String c s)
          then "" ++ replace_from "```" "" 2 s
          else String c (replace_from "```" "" 0 s)).
  rewrite prefix_cons. reflexivity.
Qed.

Lemma no_tick_after_replace (s : string) :
  prefix "`" s = false -> prefix "`" (replace_from "```" "" 0 s) = false.
Proof.
  destruct s as [|c s]; [reflexivity|].
  rewrite prefix_cons, prefix_empty, andb_true_r. intros H.
  rewrite replace_fence_cons, H, andb_false_l.
  rewrite prefix_cons, H. reflexivity.
Qed.

Lemma no_two_ticks_after_replace (s : string) :
  prefix "``" s = false -> prefix "``" (replace_from "```" "" 0 s) = false.
Proof.
  destruct s as [|c s]; [reflexivity|].
  rewrite prefix_cons. intros H. rewrite replace_fence_cons.
  destruct (Ascii.eqb "`" c) eqn:Ec.
  - rewrite andb_true_l in *.
    assert (E : prefix "``" s = false).
    { destruct s as [|d s]; [reflexivity|].
      rewrite prefix_cons in *. rewrite prefix_empty, andb_true_r in H.
      rewrite H. reflexivity. }
    rewrite E, prefix_cons, Ec, andb_true_l.
    apply no_tick_after_replace. exact H.
  - rewrite andb_false_l, prefix_cons, Ec. reflexivity.
Qed.

(** Removing the fence marker from left to right leaves no fence marker
    behind. *)
Lemma contains_replace_fence (s : string) :
  forall skip, contains "```" (replace_from "```" "" skip s) = false.
Proof.
  induction s as [|c s IH]; intros skip; [reflexivity|].
  destruct skip as [|k]; [|apply IH].
  rewrite replace_fence_cons.
  destruct (Ascii.eqb "`" c && prefix "``" s)%bool eqn:E; [apply IH|].
  rewrite contains_cons, IH, orb_false_r, prefix_cons.
  destruct (Ascii.eqb "`" c); [|reflexivity].
  rewrite andb_true_l in *. apply no_two_ticks_after_replace. exact E.
Qed.

Lemma contains_unfenced (raw : string) : contains "```" (unfenced raw) = false.
Proof.
  unfold unfenced. destruct (contains "```" (strip raw)) eqn:E; [|exact E].
  apply contains_replace_fence.
Qed.

Lemma clean_cases (raw : string) :
  clean_gemini_json raw = unfenced raw
  \/ exists n m, clean_gemini_json raw = substring n m (unfenced raw).
Proof.
  unfold clean_gemini_json. destruct (payload_bounds (unfenced raw)) as [a b].
  destruct (negb (a =? -1) && negb (b =? -1))%bool; [|left; reflexivity].
  right. unfold slice. eauto.
Qed.

(** X1.  Whatever the input, the text the extractor returns holds no fence
    marker. *)
Theorem clean_gemini_json_fence_free (raw : string) :
  contains "```" (clean_gemini_json raw) = false.
Proof.
  destruct (clean_cases raw) as [->|[n [m ->]]].
  - apply contains_unfenced.
  - destruct (contains "```" (substring n m (unfenced raw))) eqn:E;
      [|reflexivity].
    apply contains_substring in E. rewrite contains_unfenced in E.
    discriminate.
Qed.

Lemma length_lstrip (s : string) :
  (String.length (lstrip s) <= String.length s)%nat.
Proof.
  induction s as [|c s IH]; simpl; [lia|].
  destruct (isspace c); simpl; lia.
Qed.

Lemma length_rstrip (s : string) :
  (String.length (rstrip s) <= String.length s)%nat.
Proof.
  destruct (rstrip_prefix s) as [w Hw].
  rewrite Hw at 2. rewrite length_app. lia.
Qed.

Lemma length_replace_from (old : string) (s : string) :
  forall skip,
    (String.length (replace_from old "" skip s) <= String.length s)%nat.
Proof.
  induction s as [|c s IH]; intros skip; [simpl; lia|].
  destruct skip as [|k].
  - change (replace_from old "" 0 (String c s))
      with (if prefix old (String c s)
            then "" ++ replace_from old "" (String.length old - 1) s
            else String c (replace_from old "" 0 s)).
    destruct (prefix old (String c s)).
    + specialize (IH (String.length old - 1)%nat). simpl in *. lia.
    + specialize (IH 0%nat). simpl in *. lia.
  - specialize (IH k). simpl in *. lia.
Qed.

Lemma length_substring (s : string) :
  forall n m, (String.length (substring n m s) <= String.length s)%nat.
Proof.
  induction s as [|c s IH]; intros n m.
  - destruct n, m; simpl; lia.
  - destruct n as [|n]; [destruct m as [|m]|]; simpl.
    + lia.
    + specialize (IH 0%nat m). lia.
    + specialize (IH n m). lia.
Qed.

Lemma length_unfenced (raw : string) :
  (String.length (unfenced raw) <= String.length raw)%nat.
Proof.
  assert (Hs : (String.length (strip raw) <= String.length raw)%nat).
  { unfold strip. pose proof (length_rstrip (lstrip raw)).
    pose proof (length_lstrip raw). lia. }
  unfold unfenced. destruct (contains "```" (strip raw)); [|exact Hs].
  unfold replace.
  pose proof (length_replace_from "```json" (strip raw) 0).
  pose proof (length_replace_from "```"
                (replace_from "```json" "" 0 (strip raw)) 0).
  lia.
Qed.

(** X2.  The extractor only removes text: its result is never longer than
    its input. *)
Theorem clean_gemini_json_length (raw : string) :
  (String.length (clean_gemini_json raw) <= String.length raw)%nat.
Proof.
  pose proof (length_unfenced raw) as Hu.
  destruct (clean_cases raw) as [->|[n [m ->]]]; [exact Hu|].
  pose proof (length_substring (unfenced raw) n m). lia.
Qed.

Lemma wrapped_text (o c : ascii) (mid : string) :
  isspace o = false -> isspace c = false ->
  contains "```" (String o (mid ++ String c "")) = false ->
  let raw := String o (mid ++ String c "") in
  unfenced raw = raw
  /\ first_at o raw 0
  /\ last_at c raw (S (String.length mid))
  /\ between raw 0 (S (String.length mid)) = raw.
Proof.
  intros Ho Hc Hfence raw.
  assert (Hlen : String.length raw = S (S (String.length mid))).
  { unfold raw. simpl. rewrite length_app. simpl. lia. }
  split; [|split; [apply first_at_here|split]].
  - rewrite (unfenced_no_fence raw Hfence). unfold strip.
    assert (E : lstrip raw = raw) by (unfold raw; simpl; rewrite Ho; reflexivity).
    rewrite E. apply (rstrip_keeps_end (String o mid) c Hc).
  - split.
    + apply (get_last mid c).
    + intros k Hk. rewrite get_past_end by lia. discriminate.
  - unfold between. rewrite Nat.sub_0_r, <- Hlen. apply substring_all.
Qed.

(** X3.  A reply that is nothing but a JSON object or array, from its
    opening to its closing character and with no fence marker in it, is
    returned unchanged. *)
Theorem clean_gemini_json_passthrough (mid : string) :
  (contains "```" ("{" ++ mid ++ "}") = false ->
   clean_gemini_json ("{" ++ mid ++ "}") = "{" ++ mid ++ "}")
  /\ (contains "```" ("[" ++ mid ++ "]") = false ->
      clean_gemini_json ("[" ++ mid ++ "]") = "[" ++ mid ++ "]").
Proof.
  split; intros Hfence.
  - change ("{" ++ mid ++ "}") with (String "{" (mid ++ "}")) in *.
    destruct (wrapped_text "{" "}" mid eq_refl eq_refl Hfence)
      as [Hu [H0 [Hlast Hall]]].
    set (raw := String "{" (mid ++ "}")) in *.
    assert (Hobj : is_object raw).
    { apply is_object_sfilter. unfold raw. simpl. eauto. }
    destruct (clean_object raw Hobj) as [i [Hi Hres]].
    rewrite Hu in Hi, Hres.
    assert (i = 0%nat) by (eapply first_at_unique; eassumption). subst i.
    rewrite (Hres _ Hlast). exact Hall.
  - change ("[" ++ mid ++ "]") with (String "[" (mid ++ "]")) in *.
    destruct (wrapped_text "[" "]" mid eq_refl eq_refl Hfence)
      as [Hu [H0 [Hlast Hall]]].
    set (raw := String "[" (mid ++ "]")) in *.
    assert (Hnot : ~ is_object raw).
    { rewrite is_object_sfilter. unfold raw. simpl. intros [r Hr].
      discriminate. }
    assert (Hocc : occurs "[" raw) by (exists 0%nat; reflexivity).
    destruct (clean_array raw Hnot Hocc) as [k [Hk Hres]].
    rewrite Hu in Hk, Hres.
    assert (k = 0%nat) by (eapply first_at_unique; eassumption). subst k.
    rewrite (Hres _ Hlast). exact Hall.
Qed.

Lemma clean_gemini_json_passthrough_witness :
  clean_gemini_json ("{" ++ dq ++ "questions" ++ dq ++ ": []}")
  = "{" ++ dq ++ "questions" ++ dq ++ ": []}".
Proof.
  destruct (clean_gemini_json_passthrough (dq ++ "questions" ++ dq ++ ": []"))
    as [H _].
  apply H. reflexivity.
Defined.

Lemma between_delimited (t : string) (i j : nat) (a b : ascii) :
  get i t = Some a -> get j t = Some b -> a <> b ->
  between t i j = ""
  \/ exists mid, between t i j = String a (mid ++ String b "").
Proof.
  intros Ha Hb Hne.
  destruct (Nat.lt_trichotomy i j) as [Hlt|[Heq|Hgt]].
  - right. exists (substring (S i) (j - i - 1) t). unfold between.
    replace (S j - i)%nat with (S (S (j - i - 1))) by lia.
    apply substring_delimited; [exact Ha|].
    replace (i + S (j - i - 1))%nat with j by lia. exact Hb.
  - subst j. congruence.
  - left. apply between_inverted. exact Hgt.
Qed.

(** X4.  When a start and an end of the payload are both found, the result
    is empty or runs from an opening brace to a closing brace, or from an
    opening bracket to a closing bracket. *)
Theorem clean_gemini_json_delimited (raw : string) :
  pair_found raw ->
  clean_gemini_json raw = ""
  \/ (exists mid, clean_gemini_json raw = "{" ++ mid ++ "}")
  \/ (exists mid, clean_gemini_json raw = "[" ++ mid ++ "]").
Proof.
  intros [[Hobj Hocc]|[Hnot [Hopen Hocc]]].
  - apply (occurs_unfenced "}" raw eq_refl) in Hocc.
    destruct (occurs_last _ _ Hocc) as [j Hj].
    destruct (clean_object raw Hobj) as [i [Hi Hres]].
    rewrite (Hres j Hj).
    destruct (between_delimited (unfenced raw) i j "{" "}"
                (proj1 Hi) (proj1 Hj) ltac:(discriminate)) as [E|[mid E]].
    + left. exact E.
    + right. left. exists mid. exact E.
  - apply (occurs_unfenced "]" raw eq_refl) in Hocc.
    destruct (occurs_last _ _ Hocc) as [j Hj].
    destruct (clean_array raw Hnot Hopen) as [k [Hk Hres]].
    rewrite (Hres j Hj).
    destruct (between_delimited (unfenced raw) k j "[" "]"
                (proj1 Hk) (proj1 Hj) ltac:(discriminate)) as [E|[mid E]].
    + left. exact E.
    + right. right. exists mid. exact E.
Qed.

Lemma clean_gemini_json_delimited_witness :
  pair_found "noise [1, 2] noise"
  /\ (clean_gemini_json "noise [1, 2] noise" = ""
      \/ (exists mid, clean_gemini_json "noise [1, 2] noise"
                      = "{" ++ mid ++ "}")
      \/ (exists mid, clean_gemini_json "noise [1, 2] noise"
                      = "[" ++ mid ++ "]")).
Proof.
  assert (H : pair_found "noise [1, 2] noise").
  { right. split; [|split].
    - rewrite is_object_sfilter. simpl. intros [r Hr]. discriminate.
    - exists 6%nat. reflexivity.
    - exists 11%nat. reflexivity. }
  split; [exact H|]. apply clean_gemini_json_delimited. exact H.
Defined.

(** ** The generators when the completion fails *)

Lemma requests_post_cases (service : string -> Reply) (prompt : string)
  (w : World) :
  (exists e, requests_post service prompt w = (inl e, posted w prompt)
             /\ transport_error e
             /\ (service prompt = NoReply
                 \/ exists status body,
                      service prompt = Response status body
                      /\ 400 <= status < 600))
  \/ (exists status body,
        requests_post service prompt w = (inr body, posted w prompt)
        /\ service prompt = Response status body
        /\ ~ (400 <= status < 600)).
Proof.
  unfold requests_post, posted, transport_error.
  destruct (service prompt) as [|status body] eqn:E.
  - left. exists ConnectionError. auto.
  - destruct (Z.leb_spec 400 status); destruct (Z.ltb_spec status 600);
      simpl.
    + left. exists (HTTPError status). split; [reflexivity|].
      split; right; eauto.
    + right. exists status, body. repeat split; auto. lia.
    + right. exists status, body. repeat split; auto. lia.
    + right. exists status, body. repeat split; auto. lia.
Qed.

(** X5.  When the completion service does not answer or answers with an
    error status, both generators fail with the error of the transport
    itself, not with their own wrapped error: the prompt has been posted,
    nothing is printed and no deck is touched. *)
Theorem transport_failures_unwrapped (service : string -> Reply)
  (json_loads : string -> option json) (program_text : string)
  (count : Z) (w : World) :
  1 <= count <= 50 ->
  (forall prompt,
     service prompt = NoReply
     \/ exists status body,
          service prompt = Response status body /\ 400 <= status < 600) ->
  (exists e prompt,
     generate_quiz_logic service json_loads program_text count w
     = (inl e, posted w prompt) /\ transport_error e)
  /\ (exists e prompt,
        generate_flashcards_logic service json_loads program_text count w
        = (inl e, posted w prompt) /\ transport_error e).
Proof.
  intros Hcount Hfail. split.
  - unfold generate_quiz_logic. destruct (Z.leb_spec count 0); [lia|].
    rewrite (ceil_half_small count Hcount). unfold bind, lift, ret.
    set (prompt := quiz_prompt _ _ _ _).
    destruct (requests_post_cases service prompt w)
      as [[e [Hp [He _]]]|[status [body [_ [Hs Hok]]]]].
    + rewrite Hp. exists e, prompt. auto.
    + exfalso. destruct (Hfail prompt) as [E|[st [b [E Hst]]]];
        rewrite E in Hs; [discriminate|]. inversion Hs. subst. tauto.
  - unfold generate_flashcards_logic, bind.
    set (prompt := flashcards_prompt _ _).
    destruct (requests_post_cases service prompt w)
      as [[e [Hp [He _]]]|[status [body [_ [Hs Hok]]]]].
    + rewrite Hp. exists e, prompt. auto.
    + exfalso. destruct (Hfail prompt) as [E|[st [b [E Hst]]]];
        rewrite E in Hs; [discriminate|]. inversion Hs. subst. tauto.
Qed.

Lemma transport_failures_unwrapped_witness :
  exists prompt,
    generate_quiz_logic (fun _ => Response 503 "") (fun _ => None)
                        "text" 4 world0
    = (inl (HTTPError 503), posted world0 prompt).
Proof.
  assert (Hc : 1 <= 4 <= 50) by lia.
  assert (Hf : forall prompt : string,
             (fun _ : string => Response 503 "") prompt = NoReply
             \/ exists status body,
                  (fun _ : string => Response 503 "") prompt
                  = Response status body /\ 400 <= status < 600).
  { intros prompt. right. exists 503, "". split; [reflexivity|lia]. }
  destruct (transport_failures_unwrapped (fun _ => Response 503 "")
              (fun _ => None) "text" 4 world0 Hc Hf)
    as [[e [prompt [Hq He]]] _].
  exists prompt. rewrite Hq. vm_compute in Hq.
  inversion Hq. reflexivity.
Defined.

(** X6.  When the answer arrives but holds no candidate text, the quiz
    generator fails in its own handler, with the [UnboundLocalError] of the
    [print] at line 142, and prints nothing; the flashcard generator, which
    has no such [print], wraps the cause in its [RuntimeError]. *)
Theorem envelope_failure (service : string -> Reply)
  (json_loads : string -> option json) (program_text : string)
  (count : Z) (w : World) (status : Z) (body : string) (e : exn) :
  1 <= count <= 50 ->
  (forall prompt, service prompt = Response status body) ->
  ~ (400 <= status < 600) ->
  candidate_text json_loads body = inl e ->
  (exists prompt,
     generate_quiz_logic service json_loads program_text count w
     = (inl UnboundLocalError, posted w prompt))
  /\ (exists prompt,
        generate_flashcards_logic service json_loads program_text count w
        = (inl (RuntimeErrorFrom "Errore generazione flashcard: " e),
           posted w prompt)).
Proof.
  intros Hcount Hs Hok Hc.
  assert (Hst : ((400 <=? status) && (status <? 600))%bool = false).
  { destruct (Z.leb_spec 400 status); destruct (Z.ltb_spec status 600);
      simpl; auto. lia. }
  split.
  - unfold generate_quiz_logic. destruct (Z.leb_spec count 0); [lia|].
    rewrite (ceil_half_small count Hcount).
    unfold bind, lift, ret, requests_post. rewrite Hs, Hst.
    unfold quiz_try. rewrite Hc. eexists. reflexivity.
  - unfold generate_flashcards_logic, bind, requests_post.
    rewrite Hs, Hst, Hc. eexists. reflexivity.
Qed.

Lemma envelope_failure_witness :
  exists prompt,
    generate_quiz_logic (fun _ => Response 200 "{}")
                        (fun s => if String.eqb s "{}" then Some (JObj [])
                                  else None)
                        "text" 4 world0
    = (inl UnboundLocalError, posted world0 prompt).
Proof.
  assert (Hc : 1 <= 4 <= 50) by lia.
  assert (Hok : ~ (400 <= 200 < 600)) by lia.
  destruct (envelope_failure (fun _ => Response 200 "{}")
              (fun s => if String.eqb s "{}" then Some (JObj []) else None)
              "text" 4 world0 200 "{}" KeyError Hc
              (fun _ => eq_refl) Hok eq_refl) as [H _].
  exact H.
Defined.

(** X7.  The quiz generator prints exactly when it raises its wrapped
    parsing error, and then one line with the text at hand: every other
    outcome, success included, prints nothing.  It posts at most one prompt
    and never touches the decks. *)
Theorem quiz_generator_effects (service : string -> Reply)
  (json_loads : string -> option json) (program_text : string)
  (count : Z) (w : World) :
  let r := fst (generate_quiz_logic service json_loads program_text count w) in
  let w' := snd (generate_quiz_logic service json_loads program_text count w) in
  decks w' = decks w
  /\ (sent w' = sent w \/ exists prompt, sent w' = (sent w ++ [prompt])%list)
  /\ ((exists t e,
         r = inl (RuntimeErrorFrom "Errore parsing Gemini: " e)
         /\ printed w'
            = (printed w ++ [("Errore RAW text da Gemini: ", t)])%list)
      \/ ((forall msg e, r <> inl (RuntimeErrorFrom msg e))
          /\ printed w' = printed w)).
Proof.
  unfold generate_quiz_logic.
  destruct (Z.leb_spec count 0).
  { simpl. split; [reflexivity|]. split; [auto|].
    right. split; [discriminate|reflexivity]. }
  destruct (ceil_half count) as [e|m] eqn:E.
  { simpl. split; [reflexivity|]. split; [auto|].
    right. split; [|reflexivity]. apply ceil_half_error in E. subst e.
    discriminate. }
  unfold bind, lift, ret, requests_post.
  destruct (service _) as [|status body].
  { simpl. split; [reflexivity|]. split; [eauto|].
    right. split; [discriminate|reflexivity]. }
  destruct ((400 <=? status) && (status <? 600))%bool.
  { simpl. split; [reflexivity|]. split; [eauto|].
    right. split; [discriminate|reflexivity]. }
  destruct (quiz_try json_loads body) as [[[t|] e]|q]; simpl.
  - split; [reflexivity|]. split; [eauto|]. left. eauto.
  - split; [reflexivity|]. split; [eauto|].
    right. split; [discriminate|reflexivity].
  - split; [reflexivity|]. split; [eauto|].
    right. split; [discriminate|reflexivity].
Qed.

(** X8.  When the candidate text is a string that does not parse once
    extracted, the quiz generator prints the extracted text, not the text
    as received, and raises its [RuntimeError] around the decoding error;
    when the candidate text is no string at all, it prints that value and
    the cause is an [AttributeError]. *)
Theorem quiz_parse_failure (service : string -> Reply)
  (json_loads : string -> option json) (program_text : string)
  (count : Z) (w : World) (status : Z) (body : string) (text : json) :
  1 <= count <= 50 ->
  (forall prompt, service prompt = Response status body) ->
  ~ (400 <= status < 600) ->
  candidate_text json_loads body = inr text ->
  let r := fst (generate_quiz_logic service json_loads program_text count w) in
  let w' := snd (generate_quiz_logic service json_loads program_text count w) in
  (forall raw,
     text = JStr raw -> json_loads (clean_gemini_json raw) = None ->
     r = inl (RuntimeErrorFrom "Errore parsing Gemini: " JSONDecodeError)
     /\ printed w'
        = (printed w ++ [("Errore RAW text da Gemini: ",
                          JStr (clean_gemini_json raw))])%list)
  /\ ((forall raw, text <> JStr raw) ->
      r = inl (RuntimeErrorFrom "Errore parsing Gemini: " AttributeError)
      /\ printed w'
         = (printed w ++ [("Errore RAW text da Gemini: ", text)])%list).
Proof.
  intros Hcount Hs Hok Hc.
  assert (Hst : ((400 <=? status) && (status <? 600))%bool = false).
  { destruct (Z.leb_spec 400 status); destruct (Z.ltb_spec status 600);
      simpl; auto. lia. }
  unfold generate_quiz_logic. destruct (Z.leb_spec count 0); [lia|].
  rewrite (ceil_half_small count Hcount).
  unfold bind, lift, ret, requests_post. rewrite Hs, Hst.
  unfold quiz_try. rewrite Hc. split.
  - intros raw -> Hl. unfold clean_value, and_then, loads. rewrite Hl.
    split; reflexivity.
  - intros Hne. destruct text; try (split; reflexivity).
    elim (Hne s). reflexivity.
Qed.

Lemma quiz_parse_failure_witness :
  fst (generate_quiz_logic sample_service
         (fun s => if String.eqb s "R" then Some (envelope "see: {oops} ok")
                   else None)
         "text" 4 world0)
  = inl (RuntimeErrorFrom "Errore parsing Gemini: " JSONDecodeError)
  /\ printed (snd (generate_quiz_logic sample_service
         (fun s => if String.eqb s "R" then Some (envelope "see: {oops} ok")
                   else None)
         "text" 4 world0))
     = [("Errore RAW text da Gemini: ", JStr "{oops}")].
Proof.
  assert (Hc : 1 <= 4 <= 50) by lia.
  assert (Hok : ~ (400 <= 200 < 600)) by lia.
  destruct (quiz_parse_failure sample_service
              (fun s => if String.eqb s "R"
                        then Some (envelope "see: {oops} ok") else None)
              "text" 4 world0 200 "R" (JStr "see: {oops} ok") Hc
              (fun _ => eq_refl) Hok eq_refl) as [H _].
  destruct (H "see: {oops} ok" eq_refl eq_refl) as [Hr Hp].
  split; [exact Hr|exact Hp].
Defined.

(** ** The flashcard branch and the deck store *)

Lemma max_id_bound (ds : list Deck) :
  0 <= fold_right (fun d acc => Z.max (deck_id d) acc) 0 ds
  /\ forall d, In d ds ->
               deck_id d <= fold_right (fun d acc => Z.max (deck_id d) acc) 0 ds.
Proof.
  induction ds as [|d0 ds [IH0 IH]]; simpl.
  - split; [lia|tauto].
  - split; [lia|]. intros d [<-|Hin]; [lia|]. specialize (IH d Hin). lia.
Qed.

Lemma next_id_fresh (ds : list Deck) :
  0 < next_id ds /\ forall d, In d ds -> deck_id d < next_id ds.
Proof.
  unfold next_id. destruct (max_id_bound ds) as [H0 H]. split; [lia|].
  intros d Hin. specialize (H d Hin). lia.
Qed.

Lemma commit_other_decks (id : Z) (cs : list Flashcard) (ds : list Deck) :
  (forall d, In d ds -> deck_id d <> id) ->
  map (fun d' => if deck_id d' =? id
                 then {| deck_id := deck_id d'; topic := topic d';
                         cards := (cards d' ++ cs)%list |}
                 else d') ds = ds.
Proof.
  induction ds as [|d ds IH]; intros H; simpl; [reflexivity|].
  rewrite IH by (intros d' Hd; apply H; right; exact Hd).
  destruct (Z.eqb_spec (deck_id d) id) as [E|_]; [|reflexivity].
  elim (H d (or_introl eq_refl) E).
Qed.

Lemma make_cards_spec (items : list json) :
  forall cs,
    make_cards items = inr cs ->
    Forall2 (fun c card => getitem_key c "front" = inr (front card)
                           /\ getitem_key c "back" = inr (back card))
            items cs.
Proof.
  induction items as [|c rest IH]; intros cs H; simpl in H.
  - inversion H. constructor.
  - unfold make_card, and_then in H.
    destruct (getitem_key c "front") as [e|f] eqn:Ef; [discriminate|].
    destruct (getitem_key c "back") as [e|b] eqn:Eb; [discriminate|].
    destruct (make_cards rest) as [e|others]; [discriminate|].
    inversion H. subst cs. constructor; [simpl; auto|]. apply IH. reflexivity.
Qed.

Lemma make_cards_error (items : list json) (e : exn) :
  make_cards items = inl e -> e = KeyError \/ e = TypeError.
Proof.
  induction items as [|c rest IH]; simpl; [discriminate|].
  unfold make_card, and_then, getitem_key.
  destruct c as [| b | n | x | s | l | m];
    try (intros H; inversion H; auto).
  destruct (assoc "front" m); [|inversion H; auto].
  destruct (assoc "back" m); [|inversion H; auto].
  destruct (make_cards rest) as [e'|others]; [|discriminate].
  inversion H. subst. apply IH. reflexivity.
Qed.

Lemma flashcards_path_run (service : string -> Reply)
  (json_loads : string -> option json) (bind_other : json -> option string)
  (commit_error : list Flashcard -> exn) (program_text : string)
  (count : Z) (w w1 : World) (cards : json) :
  generate_flashcards_logic service json_loads program_text count w
  = (inr cards, w1) ->
  let new_deck cs := {| deck_id := next_id (decks w);
                        topic := deck_title program_text; cards := cs |} in
  let stored cs := {| sent := sent w1; printed := printed w1;
                      decks := (decks w ++ [new_deck cs])%list |} in
  flashcards_path service json_loads bind_other commit_error program_text
                  count w
  = match and_then (py_iter cards) make_cards with
    | inr cs =>
        match store_cards bind_other commit_error cs with
        | inr rows => (inr (RedirectDeck (next_id (decks w))), stored rows)
        | inl e => (inr (RedirectIndex "Errore Flashcard: " e), stored [])
        end
    | inl e => (inr (RedirectIndex "Errore Flashcard: " e), stored [])
    end.
Proof.
  intros Hgen new_deck stored.
  pose proof (generate_flashcards_logic_decks service json_loads
                program_text count w) as Hd.
  rewrite Hgen in Hd. simpl in Hd.
  unfold flashcards_path, try_except, bind. rewrite Hgen.
  unfold create_deck, lift, and_then. rewrite Hd.
  destruct (py_iter cards) as [e|items]; simpl; [reflexivity|].
  destruct (make_cards items) as [e|cs]; simpl; [reflexivity|].
  unfold commit_cards.
  destruct (store_cards bind_other commit_error cs) as [e|rows]; simpl;
    [reflexivity|].
  unfold stored, new_deck. do 2 f_equal.
  rewrite map_app. simpl. rewrite Z.eqb_refl.
  rewrite commit_other_decks; [reflexivity|].
  intros d Hin. destruct (next_id_fresh (decks w)) as [_ H].
  specialize (H d Hin). lia.
Qed.

Lemma store_rows_strings (bind_other : json -> option string)
  (cs : list Flashcard) :
  Forall (fun c => exists f b, front c = JStr f /\ back c = JStr b) cs ->
  store_rows bind_other cs = Some cs.
Proof.
  induction 1 as [|c cs [f [b [Hf Hb]]] _ IH]; [reflexivity|].
  simpl. rewrite IH. unfold store_card. rewrite Hf, Hb. simpl.
  destruct c as [cf cb]. simpl in Hf, Hb. subst. reflexivity.
Qed.

Lemma store_cards_null (bind_other : json -> option string)
  (commit_error : list Flashcard -> exn) (cs : list Flashcard) :
  Forall (fun c => (front c = JNull \/ exists f, front c = JStr f)
                   /\ (back c = JNull \/ exists b, back c = JStr b)) cs ->
  Exists (fun c => front c = JNull \/ back c = JNull) cs ->
  store_cards bind_other commit_error cs = inl IntegrityError.
Proof.
  intros Hall Hnull. unfold store_cards.
  assert (Hrows : store_rows bind_other cs = None).
  { clear Hall. induction Hnull as [c cs Hc|c cs _ IH]; simpl.
    - unfold store_card. destruct Hc as [-> | ->]; simpl.
      + reflexivity.
      + destruct (stored_text bind_other (front c)); reflexivity.
    - rewrite IH. destruct (store_card bind_other c); reflexivity. }
  rewrite Hrows.
  assert (Hbind : forallb (fun c => bindable bind_other (front c)
                                    && bindable bind_other (back c)) cs
                  = true).
  { clear Hnull Hrows. induction Hall as [|c cs [Hf Hb] _ IH];
      [reflexivity|].
    simpl. rewrite IH, andb_true_r.
    destruct Hf as [-> |[f ->]]; destruct Hb as [-> |[b ->]]; reflexivity. }
  rewrite Hbind. reflexivity.
Qed.

(** X9.  When the cards are generated and each is an object with a front
    and a back, both strings, the flashcard branch appends one deck to the
    store and redirects to it: the deck has an id above every id in use,
    the title of the text, and the cards in the order generated; the decks
    already stored stay as they were.  When the fronts and backs are
    strings or null and one of them is null, the commit of line 211 fails
    on the column that admits no null: the branch flashes the
    [IntegrityError] and the deck stays in the store without cards. *)
Theorem flashcards_path_success (service : string -> Reply)
  (json_loads : string -> option json) (bind_other : json -> option string)
  (commit_error : list Flashcard -> exn) (program_text : string)
  (count : Z) (w w1 : World) (cards : json) (items : list json)
  (cs : list Flashcard) :
  generate_flashcards_logic service json_loads program_text count w
  = (inr cards, w1) ->
  py_iter cards = inr items ->
  make_cards items = inr cs ->
  let stored rows :=
    {| sent := sent w1; printed := printed w1;
       decks := (decks w
                 ++ [ {| deck_id := next_id (decks w);
                         topic := deck_title program_text;
                         cards := rows |} ])%list |} in
  (Forall (fun c => exists f b, front c = JStr f /\ back c = JStr b) cs ->
   flashcards_path service json_loads bind_other commit_error program_text
                   count w
   = (inr (RedirectDeck (next_id (decks w))), stored cs))
  /\ (Forall (fun c => (front c = JNull \/ exists f, front c = JStr f)
                       /\ (back c = JNull \/ exists b, back c = JStr b)) cs ->
      Exists (fun c => front c = JNull \/ back c = JNull) cs ->
      flashcards_path service json_loads bind_other commit_error
                      program_text count w
      = (inr (RedirectIndex "Errore Flashcard: " IntegrityError), stored []))
  /\ (forall d, In d (decks w) -> deck_id d < next_id (decks w))
  /\ Forall2 (fun c card => getitem_key c "front" = inr (front card)
                            /\ getitem_key c "back" = inr (back card))
             items cs.
Proof.
  intros Hgen Hiter Hcards stored.
  pose proof (flashcards_path_run service json_loads bind_other commit_error
                program_text count w w1 cards Hgen) as Hrun.
  cbv zeta in Hrun. unfold and_then in Hrun. rewrite Hiter, Hcards in Hrun.
  split; [|split; [|split]].
  - intros Hstr. rewrite Hrun. unfold store_cards.
    rewrite (store_rows_strings bind_other cs Hstr). reflexivity.
  - intros Hall Hnull. rewrite Hrun.
    rewrite (store_cards_null bind_other commit_error cs Hall Hnull).
    reflexivity.
  - apply next_id_fresh.
  - apply make_cards_spec. exact Hcards.
Qed.

(** X10.  When the generated payload cannot be walked as cards, because it
    is no collection or because an item is no object or lacks [front] or
    [back], the deck has already been committed: the branch redirects to
    the form with the error and leaves a deck without cards in the
    store. *)
Theorem flashcards_path_orphan_deck (service : string -> Reply)
  (json_loads : string -> option json) (bind_other : json -> option string)
  (commit_error : list Flashcard -> exn) (program_text : string)
  (count : Z) (w w1 : World) (cards : json) (e : exn) :
  generate_flashcards_logic service json_loads program_text count w
  = (inr cards, w1) ->
  (py_iter cards = inl e
   \/ exists items, py_iter cards = inr items /\ make_cards items = inl e) ->
  flashcards_path service json_loads bind_other commit_error program_text
                  count w
  = (inr (RedirectIndex "Errore Flashcard: " e),
     {| sent := sent w1; printed := printed w1;
        decks := (decks w
                  ++ [ {| deck_id := next_id (decks w);
                          topic := deck_title program_text;
                          cards := [] |} ])%list |})
  /\ (e = KeyError \/ e = TypeError).
Proof.
  intros Hgen Hbad.
  rewrite (flashcards_path_run _ _ bind_other commit_error _ _ _ _ _ Hgen).
  unfold and_then. destruct Hbad as [Hiter|[items [Hiter Hcards]]].
  - rewrite Hiter. split; [reflexivity|]. right.
    destruct cards; simpl in Hiter; congruence.
  - rewrite Hiter, Hcards. split; [reflexivity|].
    apply (make_cards_error items e Hcards).
Qed.

Lemma find_deck_app (id : Z) (ds : list Deck) (d : Deck) :
  List.find (fun d' => deck_id d' =? id) (ds ++ [d])
  = match List.find (fun d' => deck_id d' =? id) ds with
    | Some d' => Some d'
    | None => if deck_id d =? id then Some d else None
    end.
Proof.
  induction ds as [|d0 ds IH]; simpl; [reflexivity|].
  destruct (deck_id d0 =? id); [reflexivity|exact IH].
Qed.

Lemma find_deck_fresh (ds : list Deck) :
  List.find (fun d' => deck_id d' =? next_id ds) ds = None.
Proof.
  destruct (next_id_fresh ds) as [_ H]. revert H.
  generalize (next_id ds). intros id H.
  induction ds as [|d ds IH]; simpl; [reflexivity|].
  destruct (Z.eqb_spec (deck_id d) id) as [E|_].
  - specialize (H d (or_introl eq_refl)). lia.
  - apply IH. intros d' Hd. apply H. right. exact Hd.
Qed.

(** X11.  A deck created by the flashcard branch is the one its redirect
    leads to: viewing the id returned shows the new deck with its title
    and cards, that id showed nothing before, and every other id shows
    what it showed before. *)
Theorem view_created_deck (service : string -> Reply)
  (json_loads : string -> option json) (bind_other : json -> option string)
  (commit_error : list Flashcard -> exn) (program_text : string)
  (count : Z) (w : World) (id : Z) :
  fst (flashcards_path service json_loads bind_other commit_error
                       program_text count w)
  = inr (RedirectDeck id) ->
  let w' := snd (flashcards_path service json_loads bind_other commit_error
                                 program_text count w) in
  view_flashcards id w = NotFound404
  /\ (exists cs,
        view_flashcards id w'
        = RenderDeck {| deck_id := id; topic := deck_title program_text;
                        cards := cs |})
  /\ (forall other, other <> id ->
                    view_flashcards other w' = view_flashcards other w).
Proof.
  intros Hresp w'. subst w'.
  destruct (generate_flashcards_logic service json_loads program_text
              count w) as [[e|cards] w1] eqn:Hgen.
  { unfold flashcards_path, try_except, bind in Hresp.
    rewrite Hgen in Hresp. discriminate. }
  rewrite (flashcards_path_run _ _ bind_other commit_error _ _ _ _ _ Hgen)
    in *.
  destruct (and_then (py_iter cards) make_cards) as [e|cs];
    simpl in Hresp; [discriminate|].
  destruct (store_cards bind_other commit_error cs) as [e|rows];
    simpl in Hresp; [discriminate|].
  inversion Hresp. subst id. clear Hresp.
  destruct (next_id_fresh (decks w)) as [Hpos _].
  unfold view_flashcards. simpl decks.
  destruct (Z.ltb_spec (next_id (decks w)) 0); [lia|].
  split; [|split].
  - rewrite find_deck_fresh. reflexivity.
  - exists rows. rewrite find_deck_app, find_deck_fresh. simpl.
    rewrite Z.eqb_refl. reflexivity.
  - intros other Hne. destruct (other <? 0); [reflexivity|].
    rewrite find_deck_app. simpl.
    destruct (List.find _ (decks w)); [reflexivity|].
    destruct (Z.eqb_spec (next_id (decks w)) other); [congruence|reflexivity].
Qed.

Lemma flashcards_path_success_witness :
  let card := JObj [("front", JStr "Q"); ("back", JStr "A")] in
  let blank_card := JObj [("front", JNull); ("back", JStr "A")] in
  (exists w1,
     flashcards_path sample_service (sample_loads "[1]" (JArr [card]))
                     strings_only sample_commit_error "text" 1 world0
     = (inr (RedirectDeck 1),
        {| sent := sent w1; printed := printed w1;
           decks := [ {| deck_id := 1; topic := "text...";
                         cards := [ {| front := JStr "Q";
                                       back := JStr "A" |} ] |} ] |}))
  /\ (exists w1,
        flashcards_path sample_service
                        (sample_loads "[1]" (JArr [blank_card]))
                        strings_only sample_commit_error "text" 1 world0
        = (inr (RedirectIndex "Errore Flashcard: " IntegrityError),
           {| sent := sent w1; printed := printed w1;
              decks := [ {| deck_id := 1; topic := "text...";
                            cards := [] |} ] |})).
Proof.
  intros card blank_card. split.
  - exists (snd (generate_flashcards_logic sample_service
                   (sample_loads "[1]" (JArr [card])) "text" 1 world0)).
    destruct (flashcards_path_success sample_service
                (sample_loads "[1]" (JArr [card]))
                strings_only sample_commit_error "text" 1 world0
                (snd (generate_flashcards_logic sample_service
                        (sample_loads "[1]" (JArr [card])) "text" 1 world0))
                (JArr [card]) [card]
                [ {| front := JStr "Q"; back := JStr "A" |} ]
                eq_refl eq_refl eq_refl) as [H _].
    apply H. constructor; [|constructor].
    exists "Q", "A". split; reflexivity.
  - exists (snd (generate_flashcards_logic sample_service
                   (sample_loads "[1]" (JArr [blank_card])) "text" 1
                   world0)).
    destruct (flashcards_path_success sample_service
                (sample_loads "[1]" (JArr [blank_card]))
                strings_only sample_commit_error "text" 1 world0
                (snd (generate_flashcards_logic sample_service
                        (sample_loads "[1]" (JArr [blank_card])) "text" 1
                        world0))
                (JArr [blank_card]) [blank_card]
                [ {| front := JNull; back := JStr "A" |} ]
                eq_refl eq_refl eq_refl) as [_ [H _]].
    apply H.
    + constructor; [|constructor]. split; [left; reflexivity|].
      right. exists "A". reflexivity.
    + constructor. left. reflexivity.
Defined.

Lemma flashcards_path_orphan_deck_witness :
  exists w1,
    flashcards_path sample_service (sample_loads "5" (JInt 5))
                    strings_only sample_commit_error "text" 1 world0
    = (inr (RedirectIndex "Errore Flashcard: " TypeError),
       {| sent := sent w1; printed := printed w1;
          decks := [ {| deck_id := 1; topic := "text..."; cards := [] |} ]
       |}).
Proof.
  exists (snd (generate_flashcards_logic sample_service
                 (sample_loads "5" (JInt 5)) "text" 1 world0)).
  destruct (flashcards_path_orphan_deck sample_service
              (sample_loads "5" (JInt 5))
              strings_only sample_commit_error "text" 1 world0
              (snd (generate_flashcards_logic sample_service
                      (sample_loads "5" (JInt 5)) "text" 1 world0))
              (JInt 5) TypeError eq_refl (or_introl eq_refl)) as [H _].
  exact H.
Defined.

Lemma view_created_deck_witness :
  view_flashcards 1 world0 = NotFound404
  /\ exists cs,
       view_flashcards 1
         (snd (flashcards_path sample_service (sample_loads "[]" (JArr []))
                               strings_only sample_commit_error
                               "text" 1 world0))
       = RenderDeck {| deck_id := 1; topic := deck_title "text";
                       cards := cs |}.
Proof.
  destruct (view_created_deck sample_service (sample_loads "[]" (JArr []))
              strings_only sample_commit_error
              "text" 1 world0 1 eq_refl) as [H0 [H1 _]].
  split; [exact H0|exact H1].
Defined.

(** ** The [/generate] route *)

Lemma py_int_value (max_str_digits : option nat)
  (int_error : string -> string) (s : string) (n : Z) :
  py_int max_str_digits int_error s = inr n ->
  s <> "" /\ all_chars is_decimal_char s = true /\ n = decimal_value 0 s.
Proof.
  unfold py_int.
  destruct (is_empty s) eqn:Es; [discriminate|].
  destruct (all_chars is_decimal_char s); [|discriminate].
  destruct (match max_str_digits with
            | Some k => (String.length s <=? k)%nat
            | None => true
            end); [|discriminate].
  simpl. intros H. inversion H. repeat split.
  intros ->. discriminate.
Qed.

Lemma py_int_refused (max_str_digits : option nat)
  (int_error : string -> string) (s : string) (e : exn) :
  py_int max_str_digits int_error s = inl e -> e = ValueError (int_error s).
Proof.
  unfold py_int. destruct (_ && _ && _)%bool; congruence.
Qed.

(** X12.  Every request to the route is either turned away with nothing
    posted, stored or changed in the session, by a flashed message or by
    the [ValueError] of [int] that no handler catches, or it carries a text
    that is not blank and a count from 1 to 50 written in decimal
    digits. *)
Theorem generate_quiz_gate (service : string -> Reply)
  (json_loads : string -> option json) (bind_other : json -> option string)
  (commit_error : list Flashcard -> exn) (max_str_digits : option nat)
  (int_error : string -> string) (render_quiz : json -> option exn)
  (form : Form) (session : option json)
  (w : World) :
  let out := generate_quiz service json_loads bind_other commit_error
      max_str_digits int_error render_quiz form session w in
  let program_text := strip (form_get form "program_text" "") in
  let num_input := strip (form_get form "num_questions" "") in
  (exists msg, out = (RedirectToIndex (Message msg), session, w))
  \/ (exists msg, out = (Unhandled (ValueError msg), session, w))
  \/ (program_text <> ""
      /\ all_chars is_decimal_char num_input = true
      /\ 1 <= decimal_value 0 num_input <= 50).
Proof.
  intros out program_text num_input. unfold out, generate_quiz.
  fold program_text. fold num_input.
  destruct (is_empty program_text) eqn:Et;
    [left; eexists; reflexivity|].
  destruct (isdigit num_input); simpl negb; cbv iota;
    [|left; eexists; reflexivity].
  destruct (py_int max_str_digits int_error num_input) as [e|count] eqn:Ei.
  - right. left. apply py_int_refused in Ei. subst e.
    eexists. reflexivity.
  - destruct (Z.leb_spec count 0); [left; eexists; reflexivity|].
    destruct (Z.ltb_spec 50 count); [left; eexists; reflexivity|].
    right. right. apply py_int_value in Ei. destruct Ei as [_ [Hd ->]].
    split; [|split; [exact Hd|lia]].
    intros E. rewrite E in Et. discriminate.
Qed.

(** X13.  A count field made of digits of which one is a superscript, or
    longer than the interpreter's limit on digits, passes the [isdigit]
    check and makes [int] raise: the request ends in an uncaught
    [ValueError], with nothing posted or stored. *)
Theorem generate_quiz_int_failure (service : string -> Reply)
  (json_loads : string -> option json) (bind_other : json -> option string)
  (commit_error : list Flashcard -> exn) (max_str_digits : option nat)
  (int_error : string -> string) (render_quiz : json -> option exn)
  (form : Form) (session : option json)
  (w : World) :
  let program_text := strip (form_get form "program_text" "") in
  let num_input := strip (form_get form "num_questions" "") in
  program_text <> "" ->
  isdigit num_input = true ->
  (all_chars is_decimal_char num_input = false
   \/ exists limit, max_str_digits = Some limit
                    /\ (limit < String.length num_input)%nat) ->
  generate_quiz service json_loads bind_other commit_error
      max_str_digits int_error render_quiz form session w
  = (Unhandled (ValueError (int_error num_input)), session, w).
Proof.
  intros program_text num_input Ht Hd Hbad. unfold generate_quiz.
  fold program_text. fold num_input.
  destruct (is_empty program_text) eqn:Et;
    [apply is_empty_spec in Et; contradiction|].
  rewrite Hd. simpl negb. cbv iota.
  assert (E : py_int max_str_digits int_error num_input
              = inl (ValueError (int_error num_input))).
  { unfold py_int. destruct Hbad as [Hb|[limit [-> Hlen]]].
    - rewrite Hb, andb_false_r. reflexivity.
    - destruct (Nat.leb_spec (String.length num_input) limit); [lia|].
      rewrite andb_false_r. reflexivity. }
  rewrite E. reflexivity.
Qed.

Lemma generate_quiz_int_failure_witness :
  let two := String (ascii_of_nat 178) "" in
  generate_quiz sample_service (sample_loads "[]" (JArr []))
                strings_only sample_commit_error (Some 4300%nat)
                (fun s => s) always_renders
                [("program_text", "some text"); ("num_questions", two)]
                None world0
  = (Unhandled (ValueError two), None, world0).
Proof.
  intros two.
  apply (generate_quiz_int_failure sample_service
           (sample_loads "[]" (JArr [])) strings_only sample_commit_error
           (Some 4300%nat) (fun s => s) always_renders
           [("program_text", "some text"); ("num_questions", two)]
           None world0).
  - discriminate.
  - reflexivity.
  - left. reflexivity.
Defined.

Lemma generate_quiz_logic_decks (service : string -> Reply)
  (json_loads : string -> option json) (program_text : string)
  (count : Z) (w : World) :
  decks (snd (generate_quiz_logic service json_loads program_text count w))
  = decks w.
Proof.
  unfold generate_quiz_logic. destruct (count <=? 0); [reflexivity|].
  destruct (ceil_half count); [reflexivity|].
  unfold bind, lift, ret, requests_post.
  destruct (service _) as [|status body]; [reflexivity|].
  destruct ((400 <=? status) && (status <? 600))%bool; [reflexivity|].
  destruct (quiz_try json_loads body) as [[[t|] e]|q]; reflexivity.
Qed.

Lemma generate_quiz_logic_errors (service : string -> Reply)
  (json_loads : string -> option json) (program_text : string)
  (count : Z) (w : World) (e : exn) :
  1 <= count <= 50 ->
  fst (generate_quiz_logic service json_loads program_text count w) = inl e ->
  transport_error e \/ e = UnboundLocalError
  \/ exists cause, e = RuntimeErrorFrom "Errore parsing Gemini: " cause.
Proof.
  intros Hcount. unfold generate_quiz_logic.
  destruct (Z.leb_spec count 0); [lia|].
  rewrite (ceil_half_small count Hcount). unfold bind, lift, ret.
  set (prompt := quiz_prompt _ _ _ _).
  destruct (requests_post_cases service prompt w)
    as [[e' [Hp [He _]]]|[status [body [Hp _]]]]; rewrite Hp.
  - simpl. intros Hr. inversion Hr. subst. auto.
  - destruct (quiz_try json_loads body) as [[[t|] e']|q]; simpl;
      intros Hr; inversion Hr; eauto.
Qed.

(** X14.  For a request that passes the checks and does not ask for
    flashcards, the route posts exactly one prompt, the one for the count
    with targets of half the count rounded up and the rest, and leaves the
    decks alone.  When the questions come back it stores them in the
    session and then renders them: it shows the page, or, when the
    rendering raises, flashes that exception with the questions already in
    the session.  When the generator fails it leaves the session as it was
    and flashes the error, which is a transport error, the
    [UnboundLocalError] of the handler or the wrapped parsing error, never
    the [ValueError] of the generator. *)
Theorem generate_quiz_quiz_path (service : string -> Reply)
  (json_loads : string -> option json) (bind_other : json -> option string)
  (commit_error : list Flashcard -> exn) (max_str_digits : option nat)
  (int_error : string -> string) (render_quiz : json -> option exn)
  (form : Form) (session : option json)
  (w : World) (count : Z) :
  let program_text := strip (form_get form "program_text" "") in
  let num_input := strip (form_get form "num_questions" "") in
  program_text <> "" ->
  isdigit num_input = true ->
  py_int max_str_digits int_error num_input = inr count ->
  1 <= count <= 50 ->
  form_get form "action" "quiz" <> "flashcards" ->
  exists resp session' w',
    generate_quiz service json_loads bind_other commit_error
      max_str_digits int_error render_quiz form session w
    = (resp, session', w')
    /\ w' = snd (generate_quiz_logic service json_loads program_text count w)
    /\ sent w' = (sent w ++ [quiz_prompt program_text count
                               ((count + 1) / 2)
                               (count - (count + 1) / 2)])%list
    /\ decks w' = decks w
    /\ ((exists questions,
           fst (generate_quiz_logic service json_loads program_text count w)
           = inr questions
           /\ session' = Some questions
           /\ ((render_quiz questions = None
                /\ resp = RenderQuiz questions)
               \/ (exists e,
                     render_quiz questions = Some e
                     /\ resp = RedirectToIndex
                                 (MessageWith "Errore Quiz: " e))))
        \/ (exists e,
              fst (generate_quiz_logic service json_loads program_text
                                       count w) = inl e
              /\ resp = RedirectToIndex (MessageWith "Errore Quiz: " e)
              /\ session' = session
              /\ (transport_error e \/ e = UnboundLocalError
                  \/ exists cause,
                       e = RuntimeErrorFrom "Errore parsing Gemini: " cause))).
Proof.
  intros program_text num_input Ht Hd Hi Hcount Haction.
  unfold generate_quiz. fold program_text. fold num_input.
  destruct (is_empty program_text) eqn:Et;
    [apply is_empty_spec in Et; contradiction|].
  rewrite Hd, Hi. simpl negb. cbv iota.
  destruct (Z.leb_spec count 0); [lia|].
  destruct (Z.ltb_spec 50 count); [lia|]. simpl orb. cbv iota.
  destruct (String.eqb_spec (form_get form "action" "quiz") "flashcards");
    [contradiction|].
  pose proof (generate_quiz_logic_sent service json_loads program_text
                count ((count + 1) / 2) w ltac:(lia)
                (ceil_half_small count Hcount)) as Hsent.
  pose proof (generate_quiz_logic_decks service json_loads program_text
                count w) as Hdecks.
  pose proof (generate_quiz_logic_errors service json_loads program_text
                count w) as Herr.
  destruct (generate_quiz_logic service json_loads program_text count w)
    as [[e|questions] w'].
  - exists (RedirectToIndex (MessageWith "Errore Quiz: " e)), session, w'.
    split; [reflexivity|]. split; [reflexivity|].
    split; [exact Hsent|]. split; [exact Hdecks|].
    right. exists e. split; [reflexivity|]. split; [reflexivity|].
    split; [reflexivity|]. apply Herr; [exact Hcount|reflexivity].
  - destruct (render_quiz questions) as [e|] eqn:Er.
    + exists (RedirectToIndex (MessageWith "Errore Quiz: " e)),
        (Some questions), w'.
      split; [reflexivity|]. split; [reflexivity|].
      split; [exact Hsent|]. split; [exact Hdecks|].
      left. exists questions. split; [reflexivity|]. split; [reflexivity|].
      right. exists e. split; [exact Er|reflexivity].
    + exists (RenderQuiz questions), (Some questions), w'.
      split; [reflexivity|]. split; [reflexivity|].
      split; [exact Hsent|]. split; [exact Hdecks|].
      left. exists questions. split; [reflexivity|]. split; [reflexivity|].
      left. split; [exact Er|reflexivity].
Qed.

(** An instance: a quiz of three questions is asked for, and the page of
    the questions returned fails to render. *)
Lemma generate_quiz_quiz_path_witness :
  exists w',
    generate_quiz sample_service (sample_loads "[]" (JArr []))
                  strings_only sample_commit_error None (fun s => s)
                  (fun _ => Some TypeError)
                  [("program_text", " some text "); ("num_questions", "03")]
                  None world0
    = (RedirectToIndex (MessageWith "Errore Quiz: " TypeError),
       Some (JArr []), w')
    /\ sent w' = [quiz_prompt "some text" 3 2 1].
Proof.
  destruct (generate_quiz_quiz_path sample_service
              (sample_loads "[]" (JArr []))
              strings_only sample_commit_error None (fun s => s)
              (fun _ => Some TypeError)
              [("program_text", " some text "); ("num_questions", "03")]
              None world0 3)
    as [resp [session' [w' [H [Hw [Hs _]]]]]].
  - discriminate.
  - reflexivity.
  - reflexivity.
  - lia.
  - discriminate.
  - exists w'. split; [|exact Hs].
    rewrite H. vm_compute in H. inversion H. reflexivity.
Defined.

(** ** Grading the questions as stored *)

Lemma grade_step_stored_holds (form : Form) (t : Tally) (i : nat)
  (j : json) (q : Question) :
  holds j q ->
  grade_step_stored form (stored_tally t) i j
  = inr (stored_tally (grade_step form t i q)).
Proof.
  intros [m [-> [Ht [Hq Ha]]]].
  unfold grade_step_stored, grade_step, getitem_key, and_then.
  rewrite Ht, Ha.
  destruct (is_empty (submitted form i)).
  - unfold stored_tally, add_detail. simpl. rewrite map_app. reflexivity.
  - rewrite Hq. unfold equals_str, lower_value.
    rewrite (String.eqb_sym (answer q) (submitted form i)).
    destruct (String.eqb (qtype q) "mcq").
    + destruct (String.eqb (submitted form i) (answer q));
        unfold stored_tally, add_detail; simpl; rewrite map_app; reflexivity.
    + destruct (String.eqb (lower (submitted form i)) (lower (answer q)));
        unfold stored_tally, add_detail; simpl; rewrite map_app; reflexivity.
Qed.

Lemma grade_loop_stored_holds (form : Form) (js : list json)
  (qs : list Question) :
  Forall2 holds js qs ->
  forall t i,
    grade_loop_stored form (stored_tally t) i js
    = inr (stored_tally (grade_loop form t i qs)).
Proof.
  induction 1 as [|j q js qs Hjq _ IH]; intros t i; [reflexivity|].
  simpl. rewrite (grade_step_stored_holds form t i j q Hjq). simpl.
  apply IH.
Qed.

(** X15.  On a session that holds a list of well-formed question
    dictionaries, the route as it runs on the stored values does what the
    grader on questions does: the same response, with the texts and
    answers of the entries as strings, and the same session left
    behind. *)
Theorem submit_quiz_stored_refines (js : list json) (qs : list Question)
  (form : Form) :
  Forall2 holds js qs ->
  submit_quiz_stored (Some (JArr js)) form
  = (stored_response (fst (submit_quiz (Some qs) form)),
     option_map (fun _ => JArr js) (snd (submit_quiz (Some qs) form))).
Proof.
  intros H. pose proof (Forall2_length H) as Hlen.
  destruct H as [|j q js qs Hjq Hrest]; [reflexivity|].
  unfold submit_quiz_stored, submit_quiz. simpl truthy. simpl negb.
  cbv iota. unfold py_iter, and_then.
  change stored_tally0 with (stored_tally tally0).
  rewrite (grade_loop_stored_holds form (j :: js) (q :: qs)
             (Forall2_cons _ _ Hjq Hrest) tally0 0).
  unfold py_len. rewrite Hlen. reflexivity.
Qed.

Lemma submit_quiz_stored_refines_witness :
  submit_quiz_stored
    (Some (JArr [JObj [("text", JStr "t"); ("qtype", JStr "open");
                       ("options", JNull); ("answer", JStr "Paris")]]))
    [("q0", " paris ")]
  = (stored_response
       (fst (submit_quiz (Some [open_question "Paris"])
                         [("q0", " paris ")])),
     None).
Proof.
  apply (submit_quiz_stored_refines
           [JObj [("text", JStr "t"); ("qtype", JStr "open");
                  ("options", JNull); ("answer", JStr "Paris")]]
           [open_question "Paris"] [("q0", " paris ")]).
  constructor; [|constructor].
  eexists. split; [reflexivity|]. repeat split.
Defined.

Lemma grade_loop_stored_app (form : Form) (a b : list json) :
  forall t i,
    grade_loop_stored form t i (a ++ b)
    = and_then (grade_loop_stored form t i a)
               (fun t' => grade_loop_stored form t' (i + List.length a) b).
Proof.
  induction a as [|q a IH]; intros t i; simpl.
  - rewrite Nat.add_0_r. reflexivity.
  - destruct (grade_step_stored form t i q) as [e|t']; simpl; [reflexivity|].
    rewrite IH. replace (S i + List.length a)%nat
      with (i + S (List.length a))%nat by lia. reflexivity.
Qed.

Lemma grade_step_stored_missing_answer (form : Form) (t : StoredTally)
  (i : nat) (m : list (string * json)) :
  assoc "answer" m = None ->
  grade_step_stored form t i (JObj m) = inl KeyError.
Proof.
  intros Ha. unfold grade_step_stored, getitem_key, and_then. rewrite Ha.
  destruct (is_empty (submitted form i)).
  - destruct (assoc "text" m); reflexivity.
  - destruct (assoc "qtype" m) as [qt|]; [|reflexivity].
    destruct (equals_str qt "mcq"); reflexivity.
Qed.

Lemma grade_step_stored_not_object (form : Form) (t : StoredTally)
  (i : nat) (q : json) :
  (forall m, q <> JObj m) ->
  grade_step_stored form t i q = inl TypeError.
Proof.
  intros Hq. unfold grade_step_stored, and_then.
  destruct q; try (destruct (is_empty (submitted form i)); reflexivity).
  elim (Hq members). reflexivity.
Qed.

(** X16.  When the stored list holds well-formed questions up to one that
    lacks its [answer], or that is no dictionary at all, the submission is
    not graded: the request ends in an uncaught [KeyError], or [TypeError],
    whatever was answered, and the pending quiz stays in the session. *)
Theorem submit_quiz_stored_malformed (good : list json)
  (qs : list Question) (bad : json) (rest : list json) (form : Form) :
  Forall2 holds good qs ->
  let session := Some (JArr (good ++ bad :: rest)) in
  (forall m, bad = JObj m -> assoc "answer" m = None ->
             submit_quiz_stored session form
             = (StoredUnhandled KeyError, session))
  /\ ((forall m, bad <> JObj m) ->
      submit_quiz_stored session form = (StoredUnhandled TypeError, session)).
Proof.
  intros Hgood session.
  assert (Hrun : forall e,
             (forall t i, grade_step_stored form t i bad = inl e) ->
             submit_quiz_stored session form = (StoredUnhandled e, session)).
  { intros e Hstep. unfold session, submit_quiz_stored.
    assert (Ht : truthy (JArr (good ++ bad :: rest)) = true)
      by (destruct good; reflexivity).
    rewrite Ht. simpl negb. cbv iota. unfold py_iter.
    unfold and_then at 1. rewrite grade_loop_stored_app.
    change stored_tally0 with (stored_tally tally0).
    rewrite (grade_loop_stored_holds form good qs Hgood tally0 0).
    unfold and_then. simpl grade_loop_stored. rewrite Hstep. reflexivity. }
  split.
  - intros m -> Ha. apply Hrun. intros t i.
    apply grade_step_stored_missing_answer. exact Ha.
  - intros Hq. apply Hrun. intros t i.
    apply grade_step_stored_not_object. exact Hq.
Qed.

Lemma submit_quiz_stored_malformed_witness :
  let session :=
    Some (JArr [JObj [("text", JStr "t"); ("qtype", JStr "open");
                      ("answer", JStr "Paris")];
                JObj [("text", JStr "u"); ("qtype", JStr "mcq")]]) in
  submit_quiz_stored session [("q0", "Paris")]
  = (StoredUnhandled KeyError, session).
Proof.
  intros session.
  destruct (submit_quiz_stored_malformed
              [JObj [("text", JStr "t"); ("qtype", JStr "open");
                     ("answer", JStr "Paris")]]
              [open_question "Paris"]
              (JObj [("text", JStr "u"); ("qtype", JStr "mcq")]) []
              [("q0", "Paris")]) as [H _].
  - constructor; [|constructor].
    eexists. split; [reflexivity|]. repeat split.
  - apply (H [("text", JStr "u"); ("qtype", JStr "mcq")]); reflexivity.
Defined.

Lemma py_iter_len (j : json) (items : list json) :
  py_iter j = inr items -> exists n, py_len j = inr n.
Proof. destruct j; simpl; intros H; try discriminate; eauto. Qed.

(** X17.  A pending quiz is graded once: whenever a submission is graded,
    the session is left empty and the next submission, whatever it holds,
    is told that no quiz is active.  Whenever a submission ends in an
    uncaught exception or finds no quiz, the session is left as it was. *)
Theorem submit_quiz_stored_once (session : option json) (form : Form) :
  (forall r,
     fst (submit_quiz_stored session form) = StoredRenderResult r ->
     snd (submit_quiz_stored session form) = None
     /\ forall form',
          submit_quiz_stored (snd (submit_quiz_stored session form)) form'
          = (StoredNoActiveQuiz "Nessun quiz attivo.", None))
  /\ ((forall r, fst (submit_quiz_stored session form)
                 <> StoredRenderResult r) ->
      snd (submit_quiz_stored session form) = session).
Proof.
  unfold submit_quiz_stored.
  destruct session as [questions|]; [|split; [discriminate|reflexivity]].
  destruct (truthy questions); simpl negb; cbv iota;
    [|split; [discriminate|reflexivity]].
  destruct (py_iter questions) as [e|items] eqn:Ei; simpl and_then;
    [split; [discriminate|reflexivity]|].
  destruct (grade_loop_stored form stored_tally0 0 items) as [e|t];
    [split; [discriminate|reflexivity]|].
  destruct (py_iter_len questions items Ei) as [n ->]. simpl. split.
  - intros r _. split; reflexivity.
  - intros H. elim (H _ eq_refl).
Qed.

Lemma submit_quiz_stored_once_witness :
  let session :=
    Some (JArr [JObj [("text", JStr "t"); ("qtype", JStr "open");
                      ("answer", JStr "Paris")]]) in
  submit_quiz_stored (snd (submit_quiz_stored session [("q0", "paris")]))
                     [("q0", "paris")]
  = (StoredNoActiveQuiz "Nessun quiz attivo.", None).
Proof.
  intros session.
  destruct (submit_quiz_stored_once session [("q0", "paris")]) as [H _].
  destruct (H _ eq_refl) as [_ H2]. apply H2.
Defined.

(** ** Scores that are exact *)

Lemma correct_run_table :
  forallb (fun k => String.eqb
                      (format_2f (Nat.iter k (fun x => fadd x f_1_0) f_0_0))
                      (decimal_score (Z.of_nat k) 0))
          (seq 0 51) = true.
Proof. vm_compute. reflexivity. Qed.

Lemma wrong_run_table :
  forallb (fun k => String.eqb
                      (format_2f (Nat.iter k (fun x => fsub x f_0_1) f_0_0))
                      (decimal_score 0 (Z.of_nat k)))
          (seq 0 51) = true.
Proof. vm_compute. reflexivity. Qed.

Lemma count_result_one (res : string) (form : Form) (i : nat)
  (q : Question) :
  count_result res [step_detail form i q]
  = if String.eqb (step_result form i q) res then 1 else 0.
Proof.
  unfold count_result, step_detail. simpl.
  destruct (String.eqb (step_result form i q) res); reflexivity.
Qed.

Lemma grade_step_score (form : Form) (t : Tally) (i : nat) (q : Question) :
  (step_result form i q = "blank"
   /\ score (grade_step form t i q) = score t)
  \/ (step_result form i q = "correct"
      /\ score (grade_step form t i q) = fadd (score t) f_1_0)
  \/ (step_result form i q = "wrong"
      /\ score (grade_step form t i q) = fsub (score t) f_0_1).
Proof.
  unfold grade_step, step_result.
  destruct (is_empty (submitted form i)); [left; split; reflexivity|].
  destruct (if String.eqb (qtype q) "mcq" then _ else _).
  - right. left. split; reflexivity.
  - right. right. split; reflexivity.
Qed.

Lemma new_details_cons_count (res : string) (form : Form) (i : nat)
  (q : Question) (rest : list Question) :
  count_result res (new_details form i (q :: rest))
  = (if String.eqb (step_result form i q) res then 1 else 0)
    + count_result res (new_details form (S i) rest).
Proof.
  change (new_details form i (q :: rest))
    with ([step_detail form i q] ++ new_details form (S i) rest)%list.
  rewrite count_result_app, count_result_one. reflexivity.
Qed.

Ltac step_run :=
  match goal with
  | |- _ = Nat.iter (Z.to_nat (1 + ?c)) _ _ =>
      replace (Z.to_nat (1 + c)) with (S (Z.to_nat c)) by lia;
      rewrite Nat.iter_succ_r; reflexivity
  end.

(** Without a wrong answer the score is the float reached by adding 1.0
    once per correct answer; without a correct one, by subtracting 0.1 once
    per wrong answer. *)
Lemma grade_loop_score_runs (form : Form) (questions : list Question) :
  forall t i,
    let ds := new_details form i questions in
    (count_result "wrong" ds = 0 ->
     score (grade_loop form t i questions)
     = Nat.iter (Z.to_nat (count_result "correct" ds))
                (fun x => fadd x f_1_0) (score t))
    /\ (count_result "correct" ds = 0 ->
        score (grade_loop form t i questions)
        = Nat.iter (Z.to_nat (count_result "wrong" ds))
                   (fun x => fsub x f_0_1) (score t)).
Proof.
  induction questions as [|q rest IH]; intros t i; [split; reflexivity|].
  cbv zeta. rewrite !new_details_cons_count. simpl grade_loop.
  destruct (IH (grade_step form t i q) (S i)) as [IHc IHw]. cbv zeta in *.
  pose proof (count_result_nonneg "wrong" (new_details form (S i) rest)).
  pose proof (count_result_nonneg "correct" (new_details form (S i) rest)).
  destruct (grade_step_score form t i q)
    as [[-> Hs]|[[-> Hs]|[-> Hs]]]; simpl String.eqb; cbv iota;
    rewrite ?Z.add_0_l; split; intros Hz; try lia;
    first [rewrite IHc, Hs by lia | rewrite IHw, Hs by lia];
    first [reflexivity | step_run].
Qed.

Lemma table_lookup (f : nat -> bool) (n : Z) :
  forallb f (seq 0 51) = true -> 0 <= n <= 50 -> f (Z.to_nat n) = true.
Proof.
  intros T Hn. rewrite forallb_forall in T. apply T. apply in_seq. lia.
Qed.

(** X18.  For a graded submission with no wrong answer and at most 50
    correct ones, and for one with no correct answer and at most 50 wrong
    ones, the score rendered is the exact decimal: the number of correct
    answers with two zero decimals, or minus a tenth per wrong answer. *)
Theorem exact_scores (questions : list Question) (form : Form) :
  questions <> [] ->
  exists r,
    submit_quiz (Some questions) form = (RenderResult r, None)
    /\ (r_wrong r = 0 -> r_correct r <= 50 ->
        r_score r = decimal_score (r_correct r) 0)
    /\ (r_correct r = 0 -> r_wrong r <= 50 ->
        r_score r = decimal_score 0 (r_wrong r)).
Proof.
  intros Hne. rewrite (submit_quiz_graded questions form Hne).
  eexists. split; [reflexivity|]. simpl.
  destruct (grade_loop_score_runs form questions tally0 0) as [Hc Hw].
  cbv zeta in Hc, Hw.
  pose proof (count_result_nonneg "correct" (new_details form 0 questions)).
  pose proof (count_result_nonneg "wrong" (new_details form 0 questions)).
  split.
  - intros Hz Hle. rewrite (Hc Hz).
    pose proof (table_lookup _ _ correct_run_table (conj H Hle)) as T.
    apply String.eqb_eq in T. simpl score. rewrite T.
    rewrite Z2Nat.id by lia. reflexivity.
  - intros Hz Hle. rewrite (Hw Hz).
    pose proof (table_lookup _ _ wrong_run_table (conj H0 Hle)) as T.
    apply String.eqb_eq in T. simpl score. rewrite T.
    rewrite Z2Nat.id by lia. reflexivity.
Qed.

Lemma exact_scores_witness :
  exists r,
    submit_quiz (Some [mcq_question "A"; open_question "Paris";
                       mcq_question "A"])
                (form_of 0 ["A"; ""; "A"])
    = (RenderResult r, None)
    /\ r_score r = "2.00".
Proof.
  destruct (exact_scores [mcq_question "A"; open_question "Paris";
                          mcq_question "A"]
                         (form_of 0 ["A"; ""; "A"]))
    as [r [Hr [Hc _]]]; [discriminate|].
  exists r. split; [exact Hr|].
  assert (E : r = {| total := 3; r_correct := 2; r_wrong := 0; r_blank := 1;
                     r_score := r_score r; r_details := r_details r |}).
  { vm_compute in Hr. inversion Hr. reflexivity. }
  rewrite E in Hc. simpl in Hc. rewrite Hc by lia. reflexivity.
Defined.

(** ** The flashcard generator and its branch of the route *)

Lemma generate_flashcards_logic_world (service : string -> Reply)
  (json_loads : string -> option json) (program_text : string)
  (count : Z) (w : World) :
  snd (generate_flashcards_logic service json_loads program_text count w)
  = posted w (flashcards_prompt program_text count).
Proof.
  unfold generate_flashcards_logic, bind, requests_post, posted.
  destruct (service _) as [|status body]; [reflexivity|].
  destruct ((400 <=? status) && (status <? 600))%bool; [reflexivity|].
  destruct (and_then _ _); reflexivity.
Qed.

(** X19.  The flashcard generator checks no shape: whatever value the
    extracted text parses to, a number as well as an array of cards, is
    returned as the cards; a text that does not parse raises the
    generator's [RuntimeError] around the decoding error.  Either way the
    prompt for the count has been posted and nothing is printed. *)
Theorem generate_flashcards_any_shape (service : string -> Reply)
  (json_loads : string -> option json) (program_text : string)
  (count : Z) (w : World) (status : Z) (body raw : string) :
  service (flashcards_prompt program_text count) = Response status body ->
  ~ (400 <= status < 600) ->
  candidate_text json_loads body = inr (JStr raw) ->
  (forall parsed,
     json_loads (clean_gemini_json raw) = Some parsed ->
     generate_flashcards_logic service json_loads program_text count w
     = (inr parsed, posted w (flashcards_prompt program_text count)))
  /\ (json_loads (clean_gemini_json raw) = None ->
      generate_flashcards_logic service json_loads program_text count w
      = (inl (RuntimeErrorFrom "Errore generazione flashcard: "
                               JSONDecodeError),
         posted w (flashcards_prompt program_text count))).
Proof.
  intros Hs Hok Hc.
  assert (Hst : ((400 <=? status) && (status <? 600))%bool = false).
  { destruct (Z.leb_spec 400 status); destruct (Z.ltb_spec status 600);
      simpl; auto. lia. }
  unfold generate_flashcards_logic, bind, requests_post, posted.
  rewrite Hs, Hst, Hc. unfold and_then, clean_value, loads.
  split.
  - intros parsed ->. reflexivity.
  - intros ->. reflexivity.
Qed.

Lemma generate_flashcards_any_shape_witness :
  fst (generate_flashcards_logic sample_service (sample_loads "5" (JInt 5))
                                 "text" 2 world0)
  = inr (JInt 5).
Proof.
  assert (Hok : ~ (400 <= 200 < 600)) by lia.
  destruct (generate_flashcards_any_shape sample_service
              (sample_loads "5" (JInt 5)) "text" 2 world0 200 "R" "5"
              eq_refl Hok eq_refl) as [H _].
  rewrite (H (JInt 5) eq_refl). reflexivity.
Defined.

(** X20.  For a request that passes the checks and asks for flashcards,
    the route never ends in an uncaught exception and never touches the
    session: it posts the one prompt for the count and either redirects to
    a deck it has just added, or flashes the error; in that case the store
    is as it was, or holds one more deck, without cards. *)
Theorem generate_quiz_flashcards_path (service : string -> Reply)
  (json_loads : string -> option json) (bind_other : json -> option string)
  (commit_error : list Flashcard -> exn) (max_str_digits : option nat)
  (int_error : string -> string) (render_quiz : json -> option exn)
  (form : Form) (session : option json)
  (w : World) (count : Z) :
  let program_text := strip (form_get form "program_text" "") in
  let num_input := strip (form_get form "num_questions" "") in
  program_text <> "" ->
  isdigit num_input = true ->
  py_int max_str_digits int_error num_input = inr count ->
  1 <= count <= 50 ->
  form_get form "action" "quiz" = "flashcards" ->
  exists resp w',
    generate_quiz service json_loads bind_other commit_error
      max_str_digits int_error render_quiz form session w
    = (resp, session, w')
    /\ sent w' = (sent w ++ [flashcards_prompt program_text count])%list
    /\ printed w' = printed w
    /\ ((exists cs,
           resp = RedirectToDeck (next_id (decks w))
           /\ decks w' = (decks w
                          ++ [ {| deck_id := next_id (decks w);
                                  topic := deck_title program_text;
                                  cards := cs |} ])%list)
        \/ (exists e,
              resp = RedirectToIndex (MessageWith "Errore Flashcard: " e)
              /\ (decks w' = decks w
                  \/ decks w' = (decks w
                                 ++ [ {| deck_id := next_id (decks w);
                                         topic := deck_title program_text;
                                         cards := [] |} ])%list))).
Proof.
  intros program_text num_input Ht Hd Hi Hcount Haction.
  unfold generate_quiz. fold program_text. fold num_input.
  destruct (is_empty program_text) eqn:Et;
    [apply is_empty_spec in Et; contradiction|].
  rewrite Hd, Hi, Haction. simpl negb. cbv iota.
  destruct (Z.leb_spec count 0); [lia|].
  destruct (Z.ltb_spec 50 count); [lia|]. simpl orb. cbv iota.
  rewrite String.eqb_refl.
  pose proof (generate_flashcards_logic_world service json_loads
                program_text count w) as Hw.
  destruct (generate_flashcards_logic service json_loads program_text
              count w) as [[e|cards] w1] eqn:Hgen; simpl in Hw; subst w1.
  - unfold flashcards_path, try_except, bind. rewrite Hgen. simpl.
    eexists. eexists. split; [reflexivity|]. simpl.
    split; [reflexivity|]. split; [reflexivity|].
    right. exists e. split; [reflexivity|]. left. reflexivity.
  - rewrite (flashcards_path_run _ _ bind_other commit_error _ _ _ _ _ Hgen).
    destruct (and_then (py_iter cards) make_cards) as [e|cs].
    + eexists. eexists. split; [reflexivity|]. simpl.
      split; [reflexivity|]. split; [reflexivity|].
      right. exists e. split; [reflexivity|]. right. reflexivity.
    + destruct (store_cards bind_other commit_error cs) as [e|rows].
      * eexists. eexists. split; [reflexivity|]. simpl.
        split; [reflexivity|]. split; [reflexivity|].
        right. exists e. split; [reflexivity|]. right. reflexivity.
      * eexists. eexists. split; [reflexivity|]. simpl.
        split; [reflexivity|]. split; [reflexivity|].
        left. exists rows. split; reflexivity.
Qed.

Lemma generate_quiz_flashcards_path_witness :
  exists resp w',
    generate_quiz sample_service (sample_loads "[]" (JArr []))
                  strings_only sample_commit_error None (fun s => s)
                  always_renders
                  [("program_text", "some text"); ("num_questions", "2");
                   ("action", "flashcards")]
                  None world0
    = (resp, None, w')
    /\ sent w' = [flashcards_prompt "some text" 2].
Proof.
  destruct (generate_quiz_flashcards_path sample_service
              (sample_loads "[]" (JArr []))
              strings_only sample_commit_error None (fun s => s)
              always_renders
              [("program_text", "some text"); ("num_questions", "2");
               ("action", "flashcards")]
              None world0 2)
    as [resp [w' [H [Hs _]]]].
  - discriminate.
  - reflexivity.
  - reflexivity.
  - lia.
  - reflexivity.
  - exists resp, w'. split; [exact H|exact Hs].
Defined.
